(** * AsteroidScene: coordinate normalisation and camera targeting

    A shallow embedding of [frontend/src/components/AsteroidScene.tsx] and of
    the part of [App.tsx] that feeds it.

    - JavaScript numbers are IEEE-754 binary64 values: Rocq's primitive
      [float], with the operations of [PrimFloat].  [Math.max], [Math.min],
      truthiness and [Object.is] are written out from ECMA-262.
    - [THREE.Vector3] is a record of three numbers with the methods the
      component calls, written out from three.js.
    - The component is a record of the mutable objects it reads and writes
      (camera, navigation controls, [targetRef], pending timeouts) and of what
      React keeps for it between renders (dependency arrays, the memoised
      scale, the effect's cleanup); a render, a frame and the passing of time
      are functions on that record.
    - The page ([App]) is a record of its [useState] cells; the settling of
      the request and the clicks are the events of a step function, and what
      it returns to React is a value of [Page.Screen]. *)

From Stdlib Require Import Floats ZArith List String Bool Arith Lia Reals Lra.
From Stdlib Require Import DecimalString Permutation.
Import ListNotations.

Set Warnings "-inexact-float".
Local Open Scope float_scope.

(** ** JavaScript numbers *)

Module JS.

Definition number := float.

(** [Math.max(a, b)]: NaN when an argument is NaN, else the larger one,
    [+0] counting as larger than [-0]. *)
Definition Math_max (a b : number) : number :=
  if is_nan a || is_nan b then nan
  else if a <? b then b
  else if b <? a then a
  else if get_sign a then b else a.

(** [Math.min(a, b)]: NaN when an argument is NaN, else the smaller one,
    [-0] counting as smaller than [+0]. *)
Definition Math_min (a b : number) : number :=
  if is_nan a || is_nan b then nan
  else if a <? b then a
  else if b <? a then b
  else if get_sign a then a else b.

(** [ToBoolean] on a number: [+0], [-0] and NaN are falsy. *)
Definition truthy (a : number) : bool :=
  negb (is_zero a || is_nan a).

(** [a || b] on numbers. *)
Definition or_else (a b : number) : number :=
  if truthy a then a else b.

(** [Object.is] on numbers: NaN is itself, [+0] is not [-0]. *)
Definition Object_is (a b : number) : bool := PrimFloat.Leibniz.eqb a b.

(** [!s] on a string: only the empty string is falsy. *)
Definition falsy_string (s : string) : bool :=
  match s with EmptyString => true | String _ _ => false end.

End JS.

(** ** three.js vectors *)

Module THREE.

Record Vector3 := vec3 { x : JS.number; y : JS.number; z : JS.number }.

(** [new THREE.Vector3()] *)
Definition zero3 : Vector3 := vec3 0 0 0.

(** [v.length()] is [Math.sqrt(x*x + y*y + z*z)]. *)
Definition length (v : Vector3) : JS.number :=
  PrimFloat.sqrt (x v * x v + y v * y v + z v * z v).

(** [v.multiplyScalar(s)] *)
Definition multiplyScalar (v : Vector3) (s : JS.number) : Vector3 :=
  vec3 (x v * s) (y v * s) (z v * s).

(** [v.add(w)] *)
Definition add (v w : Vector3) : Vector3 :=
  vec3 (x v + x w) (y v + y w) (z v + z w).

(** [v.lerp(w, alpha)]: each coordinate [c] becomes [c + (w.c - c) * alpha]. *)
Definition lerp (v w : Vector3) (alpha : JS.number) : Vector3 :=
  vec3 (x v + (x w - x v) * alpha)
       (y v + (y w - y v) * alpha)
       (z v + (z w - z v) * alpha).

End THREE.

Import THREE.

(** ** Scene data *)

(** A [[number, number, number]] tuple. *)
Definition triple : Type := JS.number * JS.number * JS.number.

(** [new THREE.Vector3(...t)] *)
Definition spread (t : triple) : Vector3 :=
  let '(a, b, c) := t in vec3 a b c.

Record Asteroid := {
  id : string;
  name : string;
  position : triple;
  size : JS.number;
  orbit : list triple
}.

(** ** Scale Normalizer (the [scale] memo) *)

(** [pts.reduce((m, p) => Math.max(m, p.length()), 0) || 1] *)
Definition maxDist (asteroids : list Asteroid) : JS.number :=
  let pts := map (fun a => spread (position a)) asteroids in
  JS.or_else (fold_left (fun m p => JS.Math_max m (length p)) pts 0) 1.

Definition desiredMax : JS.number := 30.

(** [Math.max(0.02, Math.min(s, 5))] *)
Definition clamp (s : JS.number) : JS.number :=
  JS.Math_max 0.02 (JS.Math_min s 5).

Definition scale_of (asteroids : list Asteroid) : JS.number :=
  let m := maxDist asteroids in
  let s := if 0 <? m then desiredMax / m else 1 in
  clamp s.

(** ** Render Projector (the JSX the component returns) *)

(** [t.map(f)] on a three-element tuple. *)
Definition map3 (f : JS.number -> JS.number) (t : triple) : triple :=
  let '(a, b, c) := t in (f a, f b, f c).

(** What is drawn for one asteroid: the [Sphere] and the [Line] of its
    [<group key={asteroid.id}>]. *)
Record Body := {
  key : string;
  radius : JS.number;
  scaledPos : triple;
  color : string;
  emissive : string;
  emissiveIntensity : JS.number;
  points : list triple;
  lineColor : string;
  opacity : JS.number
}.

(** [highlightId === asteroid.id]; [None] stands for [null]/[undefined]. *)
Definition isHighlighted (highlightId : option string) (a : Asteroid) : bool :=
  match highlightId with
  | Some h => String.eqb h (id a)
  | None => false
  end.

Definition draw (scale : JS.number) (highlightId : option string)
    (asteroid : Asteroid) : Body :=
  let hl := isHighlighted highlightId asteroid in
  {| key := id asteroid;
     radius :=
       JS.Math_max (size asteroid * JS.Math_max 0.5 scale) 0.05;
     scaledPos := map3 (fun v => v * scale) (position asteroid);
     color := if hl then "#FFA042"%string else "#909090"%string;
     emissive := if hl then "#FFB070"%string else "#000000"%string;
     emissiveIntensity := if hl then 0.35 else 0;
     points :=
       map (fun pt : triple =>
              let '(p0, p1, p2) := pt in
              (p0 * scale, p1 * scale, p2 * scale))
           (orbit asteroid);
     lineColor := if hl then "#FFA042"%string else "#FFFFFF"%string;
     opacity := if hl then 0.6 else 0.18 |}.

Record View := {
  sunRadius : JS.number;
  glowRadius : JS.number;
  lightIntensity : JS.number;
  lightDistance : JS.number;
  bodies : list Body
}.

Definition view (scale : JS.number) (highlightId : option string)
    (asteroids : list Asteroid) : View :=
  {| sunRadius := 2 * JS.Math_max 1 scale;
     glowRadius := 3 * JS.Math_max 1 scale;
     lightIntensity := 4 * JS.Math_max 1 scale;
     lightDistance := 200 * JS.Math_max 1 scale;
     bodies := map (draw scale highlightId) asteroids |}.

(** ** The component instance *)

Record Props := {
  asteroids : list Asteroid;       (* data.asteroids *)
  asteroids_ref : nat;             (* which array object that is *)
  highlightId : option string;     (* None: null or undefined *)
  resetSignal : option JS.number   (* None: undefined *)
}.

(** The navigation-control surface (drei's OrbitControls, or whatever object
    the host hands over): the fields the component touches.  A field that is
    [undefined] on the object is [None]; [updates] counts the calls of
    [update()]. *)
Record Controls := {
  ctl_ref : nat;                   (* which object this is *)
  target : option Vector3;
  enableRotate : option bool;
  enabled : option bool;
  updates : nat
}.

(** The camera: its position, and the point of the last [lookAt]. *)
Record Camera := {
  cam_position : Vector3;
  cam_lookAt : option Vector3
}.

(** A pending [setTimeout]: its id and the time (ms) at which it is due.
    Every timeout of this component runs the same callback. *)
Definition Timer : Type := nat * nat.

Record Scene := {
  props : Props;                   (* props of the last render *)
  scale : JS.number;               (* the useMemo cell *)
  camera : Camera;
  controls : option Controls;      (* controlsRef?.current ?? state.controls *)
  targetRef : option Vector3;      (* targetRef.current *)
  rotation_y : JS.number;          (* groupRef.current.rotation.y *)
  clock : nat;                     (* ms since mount *)
  timers : list Timer;
  next_timer : nat;
  cleanup : option nat;            (* the timeout the reset effect's cleanup clears *)
  fired : nat                      (* timeout callbacks run so far *)
}.

Definition set_targetRef (v : option Vector3) (st : Scene) : Scene :=
  {| props := props st; scale := scale st; camera := camera st;
     controls := controls st; targetRef := v; rotation_y := rotation_y st;
     clock := clock st; timers := timers st; next_timer := next_timer st;
     cleanup := cleanup st; fired := fired st |}.

Definition set_camera (c : Camera) (st : Scene) : Scene :=
  {| props := props st; scale := scale st; camera := c;
     controls := controls st; targetRef := targetRef st;
     rotation_y := rotation_y st; clock := clock st; timers := timers st;
     next_timer := next_timer st; cleanup := cleanup st; fired := fired st |}.

Definition set_controls (c : option Controls) (st : Scene) : Scene :=
  {| props := props st; scale := scale st; camera := camera st;
     controls := c; targetRef := targetRef st;
     rotation_y := rotation_y st; clock := clock st; timers := timers st;
     next_timer := next_timer st; cleanup := cleanup st; fired := fired st |}.

Definition set_rotation_y (r : JS.number) (st : Scene) : Scene :=
  {| props := props st; scale := scale st; camera := camera st;
     controls := controls st; targetRef := targetRef st;
     rotation_y := r; clock := clock st; timers := timers st;
     next_timer := next_timer st; cleanup := cleanup st; fired := fired st |}.

Definition set_timers (ts : list Timer) (st : Scene) : Scene :=
  {| props := props st; scale := scale st; camera := camera st;
     controls := controls st; targetRef := targetRef st;
     rotation_y := rotation_y st; clock := clock st; timers := ts;
     next_timer := next_timer st; cleanup := cleanup st; fired := fired st |}.

Definition set_cleanup (c : option nat) (st : Scene) : Scene :=
  {| props := props st; scale := scale st; camera := camera st;
     controls := controls st; targetRef := targetRef st;
     rotation_y := rotation_y st; clock := clock st; timers := timers st;
     next_timer := next_timer st; cleanup := c; fired := fired st |}.

(** *** Camera and controls methods *)

(** [camera.position.copy(v)] *)
Definition position_copy (v : Vector3) (c : Camera) : Camera :=
  {| cam_position := v; cam_lookAt := cam_lookAt c |}.

(** [camera.lookAt(v)] *)
Definition lookAt (v : Vector3) (c : Camera) : Camera :=
  {| cam_position := cam_position c; cam_lookAt := Some v |}.

(** [if (!controls.target) controls.target = new THREE.Vector3()] *)
Definition ensure_target (c : Controls) : Vector3 :=
  match target c with
  | Some v => v
  | None => zero3
  end.

Definition set_target (v : Vector3) (c : Controls) : Controls :=
  {| ctl_ref := ctl_ref c; target := Some v; enableRotate := enableRotate c;
     enabled := enabled c; updates := updates c |}.

(** [if (typeof controls.enableRotate !== 'undefined') controls.enableRotate = true]
    and the same for [enabled]. *)
Definition allow_rotation (c : Controls) : Controls :=
  {| ctl_ref := ctl_ref c; target := target c;
     enableRotate := match enableRotate c with Some _ => Some true | None => None end;
     enabled := match enabled c with Some _ => Some true | None => None end;
     updates := updates c |}.

(** [controls.update()] *)
Definition update (c : Controls) : Controls :=
  {| ctl_ref := ctl_ref c; target := target c; enableRotate := enableRotate c;
     enabled := enabled c; updates := S (updates c) |}.

(** *** Timeouts *)

(** [setTimeout(cb, delay)]: the new timeout's id, and the state with it pending. *)
Definition setTimeout (delay : nat) (st : Scene) : nat * Scene :=
  let t := next_timer st in
  (t,
   {| props := props st; scale := scale st; camera := camera st;
      controls := controls st; targetRef := targetRef st;
      rotation_y := rotation_y st; clock := clock st;
      timers := timers st ++ [(t, (clock st + delay)%nat)];
      next_timer := S t; cleanup := cleanup st; fired := fired st |}).

(** [clearTimeout(t)] *)
Definition clearTimeout (t : nat) (st : Scene) : Scene :=
  set_timers (filter (fun tm : Timer => negb (fst tm =? t)%nat) (timers st)) st.

(** The timeout's callback: [targetRef.current = null]. *)
Definition timeout_callback (st : Scene) : Scene :=
  {| props := props st; scale := scale st; camera := camera st;
     controls := controls st; targetRef := None;
     rotation_y := rotation_y st; clock := clock st; timers := timers st;
     next_timer := next_timer st; cleanup := cleanup st;
     fired := S (fired st) |}.

Definition is_due (now : nat) (tm : Timer) : bool := (snd tm <=? now)%nat.

(** [ms] milliseconds pass: the clock advances and every timeout that has
    come due runs its callback, in the order they were set. *)
Definition elapse (ms : nat) (st : Scene) : Scene :=
  let now := (clock st + ms)%nat in
  let st' :=
    {| props := props st; scale := scale st; camera := camera st;
       controls := controls st; targetRef := targetRef st;
       rotation_y := rotation_y st; clock := now;
       timers := filter (fun tm => negb (is_due now tm)) (timers st);
       next_timer := next_timer st; cleanup := cleanup st;
       fired := fired st |} in
  fold_left (fun s _ => timeout_callback s)
            (filter (is_due now) (timers st)) st'.

(** *** The per-frame callback ([useFrame]) *)

(** [new THREE.Vector3(0, 0, 0)] *)
Definition origin : Vector3 := vec3 0 0 0.

(** The callback runs with the [scale] and [controls] of the last render.
    The group is attached once the component is mounted, so its rotation
    always advances; the camera is touched only when [targetRef.current] is
    set. *)
Definition useFrame (st : Scene) : Scene :=
  let st := set_rotation_y (rotation_y st + 0.001) st in
  match targetRef st with
  | None => st
  | Some tgt =>
      let t := 0.08 in
      let desired := add tgt (vec3 0 (12 * scale st) (24 * scale st)) in
      let st :=
        set_camera
          (position_copy (lerp (cam_position (camera st)) desired t) (camera st))
          st in
      match controls st with
      | Some c =>
          set_controls
            (Some (update (set_target (lerp (ensure_target c) tgt t) c))) st
      | None => set_camera (lookAt tgt (camera st)) st
      end
  end.

(** *** The effect on [[highlightId, data.asteroids]] *)

Definition highlight_effect (st : Scene) : Scene :=
  match highlightId (props st) with
  | None => set_targetRef None st
  | Some h =>
      if JS.falsy_string h then set_targetRef None st
      else
        match find (fun a => String.eqb (id a) h) (asteroids (props st)) with
        | Some found =>
            set_targetRef
              (Some (multiplyScalar (spread (position found)) (scale st))) st
        | None => st
        end
  end.

(** *** The effect on [[resetSignal, camera, controls]] *)

(** The camera position the reset effect computes:
    [new THREE.Vector3(0, 20 * Math.max(1, scale), 40 * Math.max(1, scale))]. *)
Definition home (scale : JS.number) : Vector3 :=
  vec3 0 (20 * JS.Math_max 1 scale) (40 * JS.Math_max 1 scale).

Definition reset_effect (st : Scene) : Scene :=
  match resetSignal (props st) with
  | Some _ =>
      let st := set_targetRef (Some (multiplyScalar origin 1)) st in
      let desired := home (scale st) in
      let st := set_camera (position_copy desired (camera st)) st in
      let st :=
        match controls st with
        | Some c =>
            set_controls (Some (update (allow_rotation (set_target origin c)))) st
        | None => set_camera (lookAt origin (camera st)) st
        end in
      let '(timeout, st) := setTimeout 600 st in
      set_cleanup (Some timeout) st
  | None => set_cleanup None st
  end.

(** The function the reset effect returned last time, run before the effect
    runs again and at unmount. *)
Definition run_cleanup (st : Scene) : Scene :=
  match cleanup st with
  | Some timeout => clearTimeout timeout st
  | None => st
  end.

(** *** Rendering *)

(** [Object.is] on [string | null]. *)
Definition same_highlight (a b : option string) : bool :=
  match a, b with
  | Some s, Some t => String.eqb s t
  | None, None => true
  | _, _ => false
  end.

(** [Object.is] on [number | undefined]. *)
Definition same_signal (a b : option JS.number) : bool :=
  match a, b with
  | Some m, Some n => JS.Object_is m n
  | None, None => true
  | _, _ => false
  end.

(** [Object.is] on the controls binding. *)
Definition same_controls (a b : option Controls) : bool :=
  match a, b with
  | Some c, Some d => (ctl_ref c =? ctl_ref d)%nat
  | None, None => true
  | _, _ => false
  end.

(** Has a dependency of the highlight effect changed since the last render? *)
Definition highlight_deps_changed (p : Props) (st : Scene) : bool :=
  negb (same_highlight (highlightId (props st)) (highlightId p))
  || negb (asteroids_ref (props st) =? asteroids_ref p)%nat.

(** Has a dependency of the reset effect changed since the last render?  The
    canvas has one camera, so that dependency never does. *)
Definition reset_deps_changed (p : Props) (c : option Controls) (st : Scene) : bool :=
  negb (same_signal (resetSignal (props st)) (resetSignal p))
  || negb (same_controls (controls st) c).

(** [useMemo(..., [data.asteroids])] in a later render: the cell is kept
    when [data.asteroids] is the array of the last render. *)
Definition memo (p : Props) (st : Scene) : JS.number :=
  if (asteroids_ref (props st) =? asteroids_ref p)%nat then scale st
  else scale_of (asteroids p).

(** The first render and commit: the memo is computed and both effects run,
    in the order they are declared. *)
Definition mount (p : Props) (c : option Controls) (cam : Camera) : Scene :=
  reset_effect
    (highlight_effect
       {| props := p; scale := scale_of (asteroids p); camera := cam;
          controls := c; targetRef := None; rotation_y := 0;
          clock := 0; timers := []; next_timer := 0; cleanup := None;
          fired := 0 |}).

(** A later render with props [p], in which [controls] evaluates to [c]: the
    memo is recomputed when [data.asteroids] is another array; then React
    runs the cleanup of each effect whose dependencies changed, and then those
    effects, in the order they are declared. *)
Definition rerender (p : Props) (c : option Controls) (st : Scene) : Scene :=
  let hl := highlight_deps_changed p st in
  let rs := reset_deps_changed p c st in
  let st :=
    {| props := p; scale := memo p st; camera := camera st; controls := c;
       targetRef := targetRef st; rotation_y := rotation_y st;
       clock := clock st; timers := timers st; next_timer := next_timer st;
       cleanup := cleanup st; fired := fired st |} in
  let st := if rs then run_cleanup st else st in
  let st := if hl then highlight_effect st else st in
  if rs then reset_effect st else st.

(** Unmount: the reset effect's cleanup runs. *)
Definition unmount (st : Scene) : Scene := run_cleanup st.

(** What the component draws after a render. *)
Definition rendered (st : Scene) : View :=
  view (scale st) (highlightId (props st)) (asteroids (props st)).

(** *** Events *)

Inductive Event :=
| Render (p : Props) (c : option Controls)
| Frame
| Elapse (ms : nat).

Definition step (st : Scene) (e : Event) : Scene :=
  match e with
  | Render p c => rerender p c st
  | Frame => useFrame st
  | Elapse ms => elapse ms st
  end.

Definition run (es : list Event) (st : Scene) : Scene := fold_left step es st.

(** Events in which no prop changes: frames and the passing of time. *)
Definition quiet (e : Event) : bool :=
  match e with
  | Render _ _ => false
  | _ => true
  end.

(** The time that passes during a list of events. *)
Fixpoint duration (es : list Event) : nat :=
  match es with
  | [] => 0
  | Elapse ms :: es' => (ms + duration es')%nat
  | _ :: es' => duration es'
  end.

(** ** The part of [App] that feeds the component *)

Module App.

Record State := {
  selectedAsteroid : option Asteroid;
  resetSignal : JS.number
}.

(** [useState(null)] and [useState(0)] *)
Definition initial : State :=
  {| selectedAsteroid := None; resetSignal := 0 |}.

(** The "Center on Sun" button (it also sets [enableRotate] and [enabled] on
    the controls object, as the reset effect does). *)
Definition center_on_sun (s : State) : State :=
  {| selectedAsteroid := None; resetSignal := resetSignal s + 1 |}.

(** A click on an entry of the asteroid list. *)
Definition select (a : Asteroid) (s : State) : State :=
  {| selectedAsteroid := Some a; resetSignal := resetSignal s |}.

(** The props of [<AsteroidScene>]: [highlightId] is
    [selectedAsteroid?.id ?? null]. *)
Definition scene_props (data : list Asteroid) (ref : nat) (s : State) : Props :=
  Build_Props data ref (option_map id (selectedAsteroid s))
              (Some (resetSignal s)).

End App.

(** ** Vocabulary of the specification *)

(** Multiplying a tuple by the scale factor, elementwise. *)
Definition scale3 (s : JS.number) (t : triple) : triple :=
  let '(a, b, c) := t in (a * s, b * s, c * s).

(** The offset of the home position, before scaling. *)
Definition homeOffset : Vector3 := vec3 0 20 40.



(** The scale factor lies in [[0.02, 5]]. *)
Definition in_range (s : JS.number) : bool := (0.02 <=? s) && (s <=? 5).

(** At most one timeout is pending; it is the one the reset effect's cleanup
    will clear, and it is not overdue. *)
Definition tidy (st : Scene) : bool :=
  match timers st with
  | [] => true
  | [(t, due)] =>
      match cleanup st with
      | Some t' => (t =? t')%nat && (clock st <? due)%nat
      | None => false
      end
  | _ :: _ :: _ => false
  end.

(** What holds of the component in every state it can reach. *)
Definition well_formed (st : Scene) : bool := tidy st && in_range (scale st).

(** ** The Scale Normalizer in exact arithmetic

    The expressions of [maxDist] and [scale_of] read over the real numbers:
    the same operations in the same order, without binary64 rounding (and so
    without NaN and infinities). *)

Module Exact.

Local Open Scope R_scope.

Definition point : Type := (R * R * R)%type.

Definition length (p : point) : R :=
  let '(a, b, c) := p in sqrt (a * a + b * b + c * c).

(** [pts.reduce((m, p) => Math.max(m, p.length()), 0)] *)
Definition farthest (pts : list point) : R :=
  fold_left (fun m p => Rmax m (length p)) pts 0.

(** [... || 1] *)
Definition maxDist (pts : list point) : R :=
  if Req_EM_T (farthest pts) 0 then 1 else farthest pts.

Definition scale_of (pts : list point) : R :=
  let m := maxDist pts in
  let s := if Rlt_dec 0 m then 30 / m else 1 in
  Rmax (2 / 100) (Rmin s 5).


End Exact.

(** ** A scene to run the component on *)

Definition ceres : Asteroid :=
  {| id := "2000001"; name := "Ceres"; position := (100, 0, 0); size := 1;
     orbit := [(100, 0, 0); (0, 0, 100); (-100, 0, 0); (0, 0, -100)] |}.

(** [<Canvas camera={{ position: [0, 20, 20], fov: 60 }}>] *)
Definition canvas_camera : Camera :=
  {| cam_position := vec3 0 20 20; cam_lookAt := None |}.

(** [<OrbitControls enablePan enableZoom enableRotate />] *)
Definition orbit_controls : Controls :=
  {| ctl_ref := 1; target := Some origin; enableRotate := Some true;
     enabled := Some true; updates := 0 |}.

(** The scene as [App] first mounts it, holding one asteroid. *)
Definition mounted : Scene :=
  mount (App.scene_props [ceres] 0 App.initial) (Some orbit_controls) canvas_camera.

(** The props after a click on the asteroid's list entry. *)
Definition ceres_selected : Props :=
  App.scene_props [ceres] 0 (App.select ceres App.initial).

(** The props after [highlightId] became an id no asteroid has. *)
Definition unknown_selected : Props :=
  {| asteroids := [ceres]; asteroids_ref := 0; highlightId := Some "433"%string;
     resetSignal := Some 0 |}.

(** The props after one and after two clicks on "Center on Sun". *)
Definition centered_once : Props :=
  App.scene_props [ceres] 0 (App.center_on_sun App.initial).
Definition centered_twice : Props :=
  App.scene_props [ceres] 0 (App.center_on_sun (App.center_on_sun App.initial)).

(** The scene once the homing window of the mount is over. *)
Definition settled : Scene := elapse 600 mounted.

(** ... and with the asteroid selected: the camera is focusing on it. *)
Definition focusing : Scene := rerender ceres_selected (controls settled) settled.

(** The asteroid selected 100 ms after the mount, inside the homing window. *)
Definition reselected : Scene :=
  rerender ceres_selected (controls mounted) (elapse 100 mounted).


(** The scene mounted before the controls ref is attached, once the homing
    window of the mount is over. *)
Definition bare : Scene :=
  elapse 600 (mount (App.scene_props [ceres] 0 App.initial) None canvas_camera).

(** ** Positions that are not usable numbers *)

(** A coordinate of the tuple is NaN. *)
Definition nan_in (t : triple) : bool :=
  let '(px, py, pz) := t in is_nan px || is_nan py || is_nan pz.

(** A coordinate of the position is NaN. *)
Definition has_nan (a : Asteroid) : bool := nan_in (position a).

(** A coordinate of the position is [Infinity] or [-Infinity]. *)
Definition has_infinity (a : Asteroid) : bool :=
  let '(px, py, pz) := position a in
  is_infinity px || is_infinity py || is_infinity pz.

(** The position is the origin ([0] or [-0] in each coordinate). *)
Definition at_origin (a : Asteroid) : bool :=
  let '(px, py, pz) := position a in is_zero px && is_zero py && is_zero pz.

(** The reduction of [maxDist]. *)
Definition reduction (asteroids : list Asteroid) (m : JS.number) : JS.number :=
  fold_left (fun m p => JS.Math_max m (length p))
            (map (fun a => spread (position a)) asteroids) m.

(** A number that is zero, positive or [+Infinity]. *)
Definition nonneg (f : spec_float) : Prop :=
  f = S754_zero false \/ f = S754_infinity false \/
  exists m e, f = S754_finite false m e.

(** ** The page ([App]) *)

Module Page.

Record Metadata := {
  count : JS.number;
  time_point : option string;
  coordinate_system : option string
}.

(** The payload of [/api/v1/viz/3d-scene]. *)
Record SceneData := {
  data_asteroids : list Asteroid;  (* sceneData.asteroids *)
  data_ref : nat;                  (* which array object that is *)
  metadata : option Metadata
}.

(** What [axios.get] rejects with: an axios error, with its message and the
    status of the response if there was one, or anything else, as
    [String(err)] prints it. *)
Inductive Rejection :=
| AxiosError (message : string) (status : option nat)
| Other (text : string).

Record State := {
  sceneData : option SceneData;    (* None: null *)
  loading : bool;
  error : option string;           (* None: null *)
  app : App.State;                 (* selectedAsteroid, resetSignal *)
  showPanel : bool
}.

(** The [useState] initial values. *)
Definition initial : State :=
  {| sceneData := None; loading := true; error := None; app := App.initial;
     showPanel := true |}.

Definition set_app (a : App.State) (s : State) : State :=
  {| sceneData := sceneData s; loading := loading s; error := error s;
     app := a; showPanel := showPanel s |}.

Definition set_showPanel (b : bool) (s : State) : State :=
  {| sceneData := sceneData s; loading := loading s; error := error s;
     app := app s; showPanel := b |}.

(** *** [fetchSceneData] *)

(** [setSceneData(response.data); setLoading(false)] *)
Definition resolved (data : option SceneData) (s : State) : State :=
  {| sceneData := data; loading := false; error := error s; app := app s;
     showPanel := showPanel s |}.

(** The text [setError] is called with. *)
Definition error_text (e : Rejection) : string :=
  match e with
  | AxiosError message status =>
      ("Failed to load asteroid data: " ++ message ++ " " ++
       match status with
       | Some n => "(status " ++ NilEmpty.string_of_uint (Nat.to_uint n) ++ ")"
       | None => ""
       end)%string
  | Other text => text
  end.

(** The [catch] branch: [setError(...); setLoading(false)] *)
Definition rejected (e : Rejection) (s : State) : State :=
  {| sceneData := sceneData s; loading := false; error := Some (error_text e);
     app := app s; showPanel := showPanel s |}.

(** *** Handlers *)

(** [onSelect]: select the asteroid of the data that has this id, if any. *)
Definition onSelect (data : SceneData) (i : string) (s : State) : State :=
  match find (fun a => String.eqb (id a) i) (data_asteroids data) with
  | Some found => set_app (App.select found (app s)) s
  | None => s
  end.

(** *** What is on the screen *)

(** [sceneData?.asteroids?.slice(0, 20)] *)
Definition listed (s : State) : list Asteroid :=
  match sceneData s with
  | Some d => firstn 20 (data_asteroids d)
  | None => []
  end.

(** One button of the asteroid list: its key and label, and whether it has
    the [selected] class ([selectedAsteroid?.id === a.id]). *)
Record Item := {
  item_key : string;
  item_label : string;
  item_selected : bool
}.

Definition item (s : State) (a : Asteroid) : Item :=
  {| item_key := id a; item_label := name a;
     item_selected :=
       match App.selectedAsteroid (app s) with
       | Some sel => String.eqb (id sel) (id a)
       | None => false
       end |}.

Record Panel := {
  meta : option Metadata;          (* None: "No metadata available" *)
  items : list Item;
  details : option Asteroid        (* the "Selected" block *)
}.

Definition panel (s : State) : Panel :=
  {| meta := match sceneData s with Some d => metadata d | None => None end;
     items := map (item s) (listed s);
     details := App.selectedAsteroid (app s) |}.

(** The props of [<AsteroidScene>], when [sceneData] is there. *)
Definition scene_props (s : State) : option Props :=
  match sceneData s with
  | Some d => Some (App.scene_props (data_asteroids d) (data_ref d) (app s))
  | None => None
  end.

Inductive Screen :=
| LoadingScreen
| ErrorScreen (text : string)
| Main (side : option Panel) (scene : option Props).

(** [!error] on [string | null]: null and the empty string are falsy. *)
Definition no_error (e : option string) : bool :=
  match e with
  | Some text => JS.falsy_string text
  | None => true
  end.

Definition render (s : State) : Screen :=
  if loading s then LoadingScreen
  else if no_error (error s) then
    Main (if showPanel s then Some (panel s) else None) (scene_props s)
  else ErrorScreen (match error s with Some text => text | None => "" end).

(** *** Events *)

Inductive Event :=
| Resolved (data : option SceneData)   (* the fetch succeeded *)
| Rejected (e : Rejection)             (* the fetch failed *)
| CenterOnSun                          (* the "Center on Sun" button *)
| Export                               (* the "Export" button *)
| Hide                                 (* the "Hide" button *)
| ShowPanel                            (* the "Show Panel" button *)
| ClickItem (i : nat)                  (* the i-th button of the list *)
| ClickBody (i : nat).                 (* the sphere of the i-th asteroid *)

(** The main layout is on the screen. *)
Definition on_main (s : State) : bool :=
  negb (loading s) && no_error (error s).

(** The "Center on Sun" button ([controlsRef.current], if set, also gets
    its [enableRotate] and [enabled] set as in [allow_rotation]). *)
Definition click_center (s : State) : State :=
  set_app (App.center_on_sun (app s)) s.

(** The i-th button of the list: [setSelectedAsteroid(a)]. *)
Definition click_item (i : nat) (s : State) : State :=
  match nth_error (listed s) i with
  | Some a => set_app (App.select a (app s)) s
  | None => s
  end.

(** The sphere of the i-th asteroid: [onSelect(asteroid.id)]. *)
Definition click_body (i : nat) (s : State) : State :=
  match sceneData s with
  | Some d =>
      match nth_error (data_asteroids d) i with
      | Some a => onSelect d (id a) s
      | None => s
      end
  | None => s
  end.

(** An event reaches its handler only when what it acts on exists: the one
    fetch settles once, while the page is loading, and a button or a sphere
    can be clicked only while it is on the screen.  "Export" hands the data
    to the browser as a file and sets no state. *)
Definition step (s : State) (e : Event) : State :=
  match e with
  | Resolved data => if loading s then resolved data s else s
  | Rejected r => if loading s then rejected r s else s
  | CenterOnSun => if on_main s && showPanel s then click_center s else s
  | Export => s
  | Hide => if on_main s && showPanel s then set_showPanel false s else s
  | ShowPanel =>
      if on_main s && negb (showPanel s) then set_showPanel true s else s
  | ClickItem i => if on_main s && showPanel s then click_item i s else s
  | ClickBody i => if on_main s then click_body i s else s
  end.

Definition run (es : list Event) (s : State) : State := fold_left step es s.

(** *** What holds of the page in every state it reaches *)

(** A selection comes from the data. *)
Definition selection_ok (s : State) : Prop :=
  forall a, App.selectedAsteroid (app s) = Some a ->
    exists d, sceneData s = Some d /\ In a (data_asteroids d).

(** Nothing has happened while the page is loading, and a selection comes
    from the data. *)
Definition invariant (s : State) : Prop :=
  (loading s = true -> s = initial) /\ selection_ok s.

End Page.

(** ** Data to run the page on *)

Definition vesta : Asteroid :=
  {| id := "2000004"; name := "Vesta"; position := (0, 50, 0); size := 0.5;
     orbit := [(0, 50, 0); (50, 0, 0)] |}.

(** An asteroid that shares its id with [ceres]. *)
Definition ceres_twin : Asteroid :=
  {| id := "2000001"; name := "Ceres (copy)"; position := (0, 0, 80); size := 1;
     orbit := [] |}.

(** An asteroid whose id is the empty string. *)
Definition nameless : Asteroid :=
  {| id := ""; name := "?"; position := (10, 0, 0); size := 1; orbit := [] |}.

Definition catalogue : Page.SceneData :=
  {| Page.data_asteroids := [ceres; vesta]; Page.data_ref := 0;
     Page.metadata := None |}.

(** A payload of 21 asteroids, one more than the list shows. *)
Definition crowd : Page.SceneData :=
  {| Page.data_asteroids := repeat vesta 20 ++ [ceres]; Page.data_ref := 0;
     Page.metadata := None |}.

(** The page once [catalogue] has arrived. *)
Definition loaded : Page.State :=
  Page.step Page.initial (Page.Resolved (Some catalogue)).

(** The scene that shows [loaded], once the homing window of its mount is
    over. *)
Definition loaded_scene : Scene :=
  elapse 600
    (mount (App.scene_props [ceres; vesta] 0 App.initial) (Some orbit_controls)
           canvas_camera).

(** The page after so many clicks on "Center on Sun" that adding 1 no longer
    changes the counter. *)
Definition worn : Page.State :=
  {| Page.sceneData := Some catalogue; Page.loading := false;
     Page.error := None;
     Page.app := {| App.selectedAsteroid := Some vesta;
                    App.resetSignal := 9007199254740992 |};
     Page.showPanel := true |}.

(** A scene that shows [worn], focusing on the selected asteroid. *)
Definition worn_scene : Scene :=
  rerender (App.scene_props [ceres; vesta] 0 (Page.app worn)) None
    (elapse 600
       (mount (App.scene_props [ceres; vesta] 0
                 {| App.selectedAsteroid := None;
                    App.resetSignal := 9007199254740992 |})
              None canvas_camera)).

(** An asteroid whose position holds a NaN, and one infinitely far away. *)
Definition lost : Asteroid :=
  {| id := "x1"; name := "Lost"; position := (nan, 0, 0); size := nan;
     orbit := [] |}.

Definition remote : Asteroid :=
  {| id := "x2"; name := "Remote"; position := (0, neg_infinity, 3); size := 1;
     orbit := [] |}.

(** An asteroid that sits on the Sun. *)
Definition sunk : Asteroid :=
  {| id := "x3"; name := "Sunk"; position := (0, -0, 0); size := 1;
     orbit := [] |}.

(** Another entity at the position of [ceres]. *)
Definition sunk_ceres : Asteroid :=
  {| id := "x4"; name := "Other"; position := (100, 0, 0); size := 7;
     orbit := [(1, 1, 1)] |}.

(** * Binary64 facts

    Consequences of the specification of the primitive operations
    ([FloatAxioms], over [SpecFloat]) that the component's arithmetic needs:
    the order on numbers that are not NaN, and that rounding a quotient of
    positive numbers never yields NaN. *)

Lemma SFcompare_antisym (f1 f2 : spec_float) :
  SFcompare f2 f1 = option_map CompOpp (SFcompare f1 f2).
Proof.
  destruct f1 as [s1|s1| |s1 m1 e1], f2 as [s2|s2| |s2 m2 e2]; simpl;
    try reflexivity;
    try (destruct s1; reflexivity); try (destruct s2; reflexivity);
    try (destruct s1, s2; reflexivity).
  f_equal.
  rewrite (Z.compare_antisym e1 e2), (ZC4 m2 m1).
  destruct s1, s2, (e1 ?= e2)%Z; simpl; try reflexivity.
Qed.

Lemma SFcompare_refl (f : spec_float) :
  f <> S754_nan -> SFcompare f f = Some Eq.
Proof.
  destruct f as [s|s| |s m e]; simpl; intros H; try congruence.
  - now destruct s.
  - rewrite Z.compare_refl, Pcompare_refl. now destruct s.
Qed.

Lemma is_nan_false (a : float) : is_nan a = false <-> Prim2SF a <> S754_nan.
Proof.
  unfold is_nan. rewrite FloatAxioms.eqb_spec. unfold SFeqb. split.
  - intros H E. rewrite E in H. discriminate.
  - intros H. now rewrite (SFcompare_refl _ H).
Qed.

Lemma ltb_leb (a b : float) : (a <? b) = true -> (a <=? b) = true.
Proof.
  rewrite FloatAxioms.ltb_spec, FloatAxioms.leb_spec. unfold SFltb, SFleb.
  destruct (SFcompare _ _) as [[]|]; congruence.
Qed.

Lemma not_ltb_leb (a b : float) :
  is_nan a = false -> is_nan b = false -> (b <? a) = false -> (a <=? b) = true.
Proof.
  rewrite !is_nan_false, FloatAxioms.ltb_spec, FloatAxioms.leb_spec. unfold SFltb, SFleb.
  rewrite (SFcompare_antisym (Prim2SF a) (Prim2SF b)).
  destruct (Prim2SF a) as [s1|s1| |s1 m1 e1], (Prim2SF b) as [s2|s2| |s2 m2 e2];
    try congruence; intros _ _;
    match goal with |- context [SFcompare ?u ?v] => destruct (SFcompare u v) as [[]|] eqn:E end;
    simpl; try congruence; simpl in E; discriminate.
Qed.

Lemma leb_not_nan_l (a b : float) : (a <=? b) = true -> is_nan a = false.
Proof.
  rewrite is_nan_false, FloatAxioms.leb_spec. unfold SFleb. intros H E. rewrite E in H.
  discriminate.
Qed.

Lemma leb_not_nan_r (a b : float) : (a <=? b) = true -> is_nan b = false.
Proof.
  rewrite is_nan_false, FloatAxioms.leb_spec. unfold SFleb. intros H E. rewrite E in H.
  destruct (Prim2SF a); discriminate.
Qed.

Lemma Math_min_cases (a b : float) :
  is_nan a = false -> is_nan b = false ->
  (JS.Math_min a b = a /\ (a <=? b) = true) \/
  (JS.Math_min a b = b /\ (b <=? a) = true).
Proof.
  intros Ha Hb. unfold JS.Math_min. rewrite Ha, Hb. simpl.
  destruct (a <? b) eqn:Hab; [left; auto using ltb_leb|].
  destruct (b <? a) eqn:Hba; [right; auto using ltb_leb|].
  destruct (get_sign a); [left | right]; auto using not_ltb_leb.
Qed.

Lemma Math_max_cases (a b : float) :
  is_nan a = false -> is_nan b = false ->
  (JS.Math_max a b = a /\ (b <=? a) = true) \/
  (JS.Math_max a b = b /\ (a <=? b) = true).
Proof.
  intros Ha Hb. unfold JS.Math_max. rewrite Ha, Hb. simpl.
  destruct (a <? b) eqn:Hab; [right; auto using ltb_leb|].
  destruct (b <? a) eqn:Hba; [left; auto using ltb_leb|].
  destruct (get_sign a); [right | left]; auto using not_ltb_leb.
Qed.

Lemma clamp_range (s : float) :
  is_nan s = false ->
  (0.02 <=? clamp s) = true /\ (clamp s <=? 5) = true.
Proof.
  intros Hs. unfold clamp.
  destruct (Math_min_cases s 5 Hs eq_refl) as [[E1 L1]|[E1 L1]]; rewrite E1.
  - destruct (Math_max_cases 0.02 s eq_refl Hs) as [[E2 L2]|[E2 L2]];
      rewrite E2; auto.
  - destruct (Math_max_cases 0.02 5 eq_refl eq_refl) as [[E2 L2]|[E2 L2]];
      rewrite E2; auto.
Qed.

Lemma SFleb_trans (f1 f2 f3 : spec_float) :
  SFleb f1 f2 = true -> SFleb f2 f3 = true -> SFleb f1 f3 = true.
Proof.
  unfold SFleb.
  destruct f1 as [s1|s1| |s1 m1 e1], f2 as [s2|s2| |s2 m2 e2],
           f3 as [s3|s3| |s3 m3 e3]; simpl; try discriminate; try reflexivity;
    try (destruct s1; discriminate || reflexivity);
    try (destruct s2; discriminate || reflexivity);
    try (destruct s3; discriminate || reflexivity);
    try (destruct s1, s2; discriminate || reflexivity);
    try (destruct s1, s3; discriminate || reflexivity);
    try (destruct s2, s3; discriminate || reflexivity);
    try (destruct s1, s2, s3; discriminate || reflexivity).
  destruct s1, s2, s3; try discriminate; try reflexivity;
    rewrite ?Pos.compare_cont_spec; simpl;
    destruct (Z.compare_spec e1 e2), (Z.compare_spec e2 e3); subst;
      try discriminate;
      rewrite ?Z.compare_refl;
      repeat match goal with
      | |- context [(?a ?= ?b)%positive] => destruct (Pos.compare_spec a b); subst
      | |- context [(?a ?= ?b)%Z] => destruct (Z.compare_spec a b); subst
      end; simpl; try discriminate; try reflexivity; try lia.
Qed.

Lemma leb_trans (a b c : float) :
  (a <=? b) = true -> (b <=? c) = true -> (a <=? c) = true.
Proof. rewrite !FloatAxioms.leb_spec. apply SFleb_trans. Qed.

Lemma leb_refl (a : float) : is_nan a = false -> (a <=? a) = true.
Proof.
  rewrite is_nan_false, FloatAxioms.leb_spec. unfold SFleb. intros H.
  now rewrite (SFcompare_refl _ H).
Qed.




Section Rounding.
Variables prec emax : Z.

Lemma shr_1_nonneg (mrs : shr_record) :
  (0 <= shr_m mrs)%Z -> (0 <= shr_m (shr_1 mrs))%Z.
Proof.
  destruct mrs as [m r s]. simpl.
  destruct m as [|[p|p|]|p]; simpl; lia.
Qed.

Lemma iter_shr_1_nonneg (p : positive) :
  forall mrs, (0 <= shr_m mrs)%Z -> (0 <= shr_m (SpecFloat.iter_pos shr_1 p mrs))%Z.
Proof.
  induction p as [p IH|p IH|]; intros mrs H; simpl.
  - apply IH, IH, shr_1_nonneg, H.
  - apply IH, IH, H.
  - apply shr_1_nonneg, H.
Qed.

Lemma shr_fexp_nonneg (m e : Z) (l : location) :
  (0 <= m)%Z -> (0 <= shr_m (fst (shr_fexp prec emax m e l)))%Z.
Proof.
  intros H. unfold shr_fexp, shr.
  assert (H0 : (0 <= shr_m (shr_record_of_loc m l))%Z)
    by (destruct l as [|[]]; simpl; exact H).
  destruct (fexp prec emax (Zdigits2 m + e) - e)%Z; simpl; auto.
  now apply iter_shr_1_nonneg.
Qed.

Lemma round_nearest_even_nonneg (m : Z) (l : location) :
  (0 <= m)%Z -> (0 <= round_nearest_even m l)%Z.
Proof.
  intros H. destruct l as [|[]]; simpl; try lia.
  destruct (Z.even m); lia.
Qed.

Lemma binary_round_aux_not_nan (sx : bool) (mx ex : Z) (lx : location) :
  (0 <= mx)%Z -> binary_round_aux prec emax sx mx ex lx <> S754_nan.
Proof.
  intros H. unfold binary_round_aux.
  pose proof (shr_fexp_nonneg mx ex lx H) as H1.
  destruct (shr_fexp prec emax mx ex lx) as [mrs' e']. simpl in H1.
  pose proof (shr_fexp_nonneg _ e' loc_Exact
                (round_nearest_even_nonneg _ (loc_of_shr_record mrs') H1)) as H2.
  destruct (shr_fexp prec emax _ e' loc_Exact) as [mrs'' e'']. simpl in H2.
  destruct (shr_m mrs'') as [|m|m]; try discriminate.
  - destruct (e'' <=? emax - prec)%Z; discriminate.
  - lia.
Qed.

Lemma SFdiv_finite_pos_not_nan (sx : bool) (mx : positive) (ex : Z) (y : spec_float) :
  SFltb (S754_zero false) y = true ->
  SFdiv prec emax (S754_finite sx mx ex) y <> S754_nan.
Proof.
  destruct y as [s|s| |s my ey]; simpl; try discriminate.
  intros _. unfold SFdiv_core_binary.
  set (m' := match (ex - ey - _)%Z with
             | 0%Z => Z.pos mx | Z.pos _ => Z.shiftl (Z.pos mx) _ | Z.neg _ => 0%Z end).
  assert (Hm : (0 <= m')%Z).
  { subst m'. destruct (ex - ey - _)%Z; try lia. apply Z.shiftl_nonneg. lia. }
  pose proof (Z.div_pos m' (Z.pos my) Hm eq_refl) as Hq.
  unfold Z.div in Hq. destruct (Z.div_eucl m' (Z.pos my)) as [q r].
  now apply binary_round_aux_not_nan.
Qed.
End Rounding.

Lemma div_desiredMax_not_nan (m : float) :
  (0 <? m) = true -> is_nan (desiredMax / m) = false.
Proof.
  intros H. apply is_nan_false. rewrite div_spec.
  rewrite FloatAxioms.ltb_spec in H.
  change (Prim2SF desiredMax) with (S754_finite false 8444249301319680 (-48)).
  now apply SFdiv_finite_pos_not_nan.
Qed.

Lemma Prim2SF_lower : Prim2SF 0.02 = S754_finite false 5764607523034235 (-58).
Proof. reflexivity. Qed.

Lemma Prim2SF_upper : Prim2SF 5 = S754_finite false 5629499534213120 (-50).
Proof. reflexivity. Qed.

Lemma leb_finite_cases (r : float) :
  (0.02 <=? r) = true -> (r <=? 5) = true ->
  exists m e, Prim2SF r = S754_finite false m e.
Proof.
  rewrite !FloatAxioms.leb_spec. unfold SFleb. rewrite Prim2SF_lower, Prim2SF_upper.
  destruct (Prim2SF r) as [s|s| |s m e].
  - intros H; exfalso; revert H. destruct s; cbn; discriminate.
  - destruct s; cbn; discriminate.
  - cbn; discriminate.
  - destruct s; [cbn; discriminate|]. intros _ _. now exists m, e.
Qed.

Lemma in_range_facts (r : float) :
  in_range r = true ->
  is_nan r = false /\ is_finite r = true /\ (0 <? r) = true /\ 0 * r = 0.
Proof.
  unfold in_range. rewrite andb_true_iff. intros [H1 H2].
  destruct (leb_finite_cases r H1 H2) as (m & e & E).
  assert (Hn : is_nan r = false) by (apply is_nan_false; rewrite E; discriminate).
  repeat split.
  - exact Hn.
  - unfold is_finite, is_infinity. rewrite Hn.
    rewrite FloatAxioms.eqb_spec, abs_spec, E. reflexivity.
  - rewrite FloatAxioms.ltb_spec, E. reflexivity.
  - apply Prim2SF_inj. rewrite mul_spec, E. reflexivity.
Qed.

(** * The component *)

(** The scale factor is in its range whatever the positions. *)
Lemma scale_of_in_range (l : list Asteroid) : in_range (scale_of l) = true.
Proof.
  unfold in_range, scale_of.
  assert (H : is_nan (if 0 <? maxDist l then desiredMax / maxDist l else 1) = false).
  { destruct (0 <? maxDist l) eqn:E;
      [now apply div_desiredMax_not_nan | reflexivity]. }
  destruct (clamp_range _ H) as [H1 H2]. now rewrite H1, H2.
Qed.

(** ** What frames and the passing of time leave alone *)

Lemma useFrame_keeps (st : Scene) :
  targetRef (useFrame st) = targetRef st /\
  timers (useFrame st) = timers st /\
  cleanup (useFrame st) = cleanup st /\
  clock (useFrame st) = clock st /\
  fired (useFrame st) = fired st /\
  scale (useFrame st) = scale st /\
  props (useFrame st) = props st /\
  next_timer (useFrame st) = next_timer st.
Proof.
  unfold useFrame. simpl.
  destruct (targetRef st) as [tgt|] eqn:E; simpl; [|now rewrite E].
  destruct (controls st); simpl; now rewrite E.
Qed.

Lemma elapse_idle (ms : nat) (st : Scene) :
  timers st = [] ->
  elapse ms st =
  {| props := props st; scale := scale st; camera := camera st;
     controls := controls st; targetRef := targetRef st;
     rotation_y := rotation_y st; clock := (clock st + ms)%nat;
     timers := []; next_timer := next_timer st; cleanup := cleanup st;
     fired := fired st |}.
Proof. intros H. unfold elapse. rewrite H. reflexivity. Qed.

Lemma elapse_pending (ms : nat) (st : Scene) (t due : nat) :
  timers st = [(t, due)] -> (clock st + ms < due)%nat ->
  elapse ms st =
  {| props := props st; scale := scale st; camera := camera st;
     controls := controls st; targetRef := targetRef st;
     rotation_y := rotation_y st; clock := (clock st + ms)%nat;
     timers := [(t, due)]; next_timer := next_timer st; cleanup := cleanup st;
     fired := fired st |}.
Proof.
  intros H L. unfold elapse. rewrite H. simpl. unfold is_due. simpl.
  apply Nat.leb_gt in L. rewrite L. reflexivity.
Qed.

Lemma elapse_due (ms : nat) (st : Scene) (t due : nat) :
  timers st = [(t, due)] -> (due <= clock st + ms)%nat ->
  elapse ms st =
  {| props := props st; scale := scale st; camera := camera st;
     controls := controls st; targetRef := None;
     rotation_y := rotation_y st; clock := (clock st + ms)%nat;
     timers := []; next_timer := next_timer st; cleanup := cleanup st;
     fired := S (fired st) |}.
Proof.
  intros H L. unfold elapse. rewrite H. simpl. unfold is_due. simpl.
  apply Nat.leb_le in L. rewrite L. reflexivity.
Qed.

(** Frames and the passing of time, with no timeout pending. *)
Lemma run_quiet_idle (es : list Event) :
  forall st, forallb quiet es = true -> timers st = [] ->
  timers (run es st) = [] /\
  targetRef (run es st) = targetRef st /\
  fired (run es st) = fired st /\
  cleanup (run es st) = cleanup st /\
  scale (run es st) = scale st /\
  props (run es st) = props st /\
  next_timer (run es st) = next_timer st /\
  clock (run es st) = (clock st + duration es)%nat.
Proof.
  induction es as [|e es IH]; intros st Hq Ht; simpl in *.
  - repeat split; auto.
  - apply andb_true_iff in Hq. destruct Hq as [He Hq].
    destruct e as [p c| |ms]; try discriminate; simpl.
    + destruct (useFrame_keeps st) as (K1 & K2 & K3 & K4 & K5 & K6 & K7 & K8).
      destruct (IH (useFrame st) Hq) as (I1 & I2 & I3 & I4 & I5 & I6 & I7 & I8);
        [congruence|].
      repeat split; congruence.
    + rewrite (elapse_idle ms st Ht).
      match goal with |- context [run es ?s] =>
        destruct (IH s Hq eq_refl) as (I1 & I2 & I3 & I4 & I5 & I6 & I7 & I8) end.
      simpl in *. repeat split; try assumption. lia.
Qed.

(** Frames and the passing of time, with one timeout pending: nothing
    happens to the focus until the timeout is due, and then it is cleared,
    once. *)
Lemma run_quiet_pending (t due : nat) (es : list Event) :
  forall st, forallb quiet es = true ->
  timers st = [(t, due)] -> (clock st < due)%nat ->
  scale (run es st) = scale st /\
  cleanup (run es st) = cleanup st /\
  props (run es st) = props st /\
  next_timer (run es st) = next_timer st /\
  clock (run es st) = (clock st + duration es)%nat /\
  if (clock st + duration es <? due)%nat
  then timers (run es st) = [(t, due)] /\
       targetRef (run es st) = targetRef st /\
       fired (run es st) = fired st
  else timers (run es st) = [] /\
       targetRef (run es st) = None /\
       fired (run es st) = S (fired st).
Proof.
  induction es as [|e es IH]; intros st Hq Ht Hc; simpl in *.
  - rewrite Nat.add_0_r. apply Nat.ltb_lt in Hc. rewrite Hc. repeat split; assumption.
  - apply andb_true_iff in Hq. destruct Hq as [He Hq].
    destruct e as [p c| |ms]; try discriminate; simpl.
    + destruct (useFrame_keeps st) as (K1 & K2 & K3 & K4 & K5 & K6 & K7 & K8).
      destruct (IH (useFrame st) Hq) as (I1 & I2 & I3 & I4 & I5 & I6);
        [congruence|lia|].
      rewrite K1, K3, K4, K5, K6, K7, K8 in *. auto 7.
    + destruct (Nat.ltb_spec (clock st + ms) due) as [L|L].
      * rewrite (elapse_pending ms st t due Ht L).
        match goal with |- context [run es ?s] =>
          destruct (IH s Hq eq_refl) as (I1 & I2 & I3 & I4 & I5 & I6);
            [simpl; lia|] end.
        simpl in *. rewrite Nat.add_assoc. auto 7.
      * rewrite (elapse_due ms st t due Ht L).
        match goal with |- context [run es ?s] =>
          destruct (run_quiet_idle es s Hq eq_refl)
            as (I1 & I2 & I3 & I4 & I5 & I6 & I7 & I8) end.
        simpl in *.
        assert (E : (clock st + (ms + duration es) <? due)%nat = false)
          by (apply Nat.ltb_ge; lia).
        rewrite E. repeat split; try assumption. lia.
Qed.

Lemma tidy_cases (st : Scene) :
  tidy st = true ->
  timers st = [] \/
  exists t due, timers st = [(t, due)] /\ cleanup st = Some t /\ (clock st < due)%nat.
Proof.
  unfold tidy. destruct (timers st) as [|[t due] [|? ?]]; auto; try discriminate.
  destruct (cleanup st) as [t'|]; try discriminate.
  rewrite andb_true_iff, Nat.eqb_eq, Nat.ltb_lt. intros [-> H].
  right. now exists t', due.
Qed.

Lemma run_cleanup_clears (st : Scene) :
  tidy st = true -> run_cleanup st = set_timers [] st.
Proof.
  intros H. destruct (tidy_cases st H) as [E|(t & due & E & C & _)];
    unfold run_cleanup, clearTimeout;
    destruct st as [p sc cam ctl tg ry ck ts nt cl fr]; simpl in *; subst; simpl.
  - now destruct cl.
  - now rewrite Nat.eqb_refl.
Qed.

Lemma highlight_effect_only (st : Scene) :
  highlight_effect st = set_targetRef (targetRef (highlight_effect st)) st.
Proof.
  unfold highlight_effect.
  destruct (highlightId (props st)) as [h|]; [|reflexivity].
  destruct (JS.falsy_string h); [reflexivity|].
  destruct (find _ _); [reflexivity|]. now destruct st.
Qed.

Lemma effects_keep_scale (st : Scene) :
  scale (highlight_effect st) = scale st /\
  scale (reset_effect st) = scale st /\
  scale (run_cleanup st) = scale st.
Proof.
  split; [|split].
  - now rewrite highlight_effect_only.
  - unfold reset_effect. destruct (resetSignal (props st)); [|reflexivity].
    simpl. now destruct (controls st).
  - unfold run_cleanup. now destruct (cleanup st).
Qed.

Lemma rerender_scale (p : Props) (c : option Controls) (st : Scene) :
  scale (rerender p c st) = memo p st.
Proof.
  unfold rerender.
  destruct (reset_deps_changed p c st), (highlight_deps_changed p st);
    repeat match goal with
    | |- context [scale (reset_effect ?s)] =>
        rewrite (proj1 (proj2 (effects_keep_scale s)))
    | |- context [scale (highlight_effect ?s)] =>
        rewrite (proj1 (effects_keep_scale s))
    | |- context [scale (run_cleanup ?s)] =>
        rewrite (proj2 (proj2 (effects_keep_scale s)))
    end; reflexivity.
Qed.

Lemma reset_effect_homes (st : Scene) (n : JS.number) :
  resetSignal (props st) = Some n -> timers st = [] ->
  reset_effect st =
  {| props := props st; scale := scale st;
     camera :=
       match controls st with
       | Some _ => position_copy (home (scale st)) (camera st)
       | None => lookAt origin (position_copy (home (scale st)) (camera st))
       end;
     controls :=
       option_map (fun c => update (allow_rotation (set_target origin c)))
                  (controls st);
     targetRef := Some origin; rotation_y := rotation_y st; clock := clock st;
     timers := [(next_timer st, (clock st + 600)%nat)];
     next_timer := S (next_timer st); cleanup := Some (next_timer st);
     fired := fired st |}.
Proof.
  intros Hn Ht. unfold reset_effect. rewrite Hn.
  destruct st as [p sc cam ctl tg ry ck ts nt cl fr]; simpl in *; subst.
  destruct ctl; reflexivity.
Qed.

Lemma rerender_reset (p : Props) (c : option Controls) (st : Scene) (n : JS.number) :
  tidy st = true -> resetSignal p = Some n -> reset_deps_changed p c st = true ->
  rerender p c st =
  {| props := p; scale := memo p st;
     camera :=
       match c with
       | Some _ => position_copy (home (memo p st)) (camera st)
       | None => lookAt origin (position_copy (home (memo p st)) (camera st))
       end;
     controls :=
       option_map (fun c0 => update (allow_rotation (set_target origin c0))) c;
     targetRef := Some origin; rotation_y := rotation_y st; clock := clock st;
     timers := [(next_timer st, (clock st + 600)%nat)];
     next_timer := S (next_timer st); cleanup := Some (next_timer st);
     fired := fired st |}.
Proof.
  intros Ht Hn Hr. unfold rerender. rewrite Hr. fold (memo p st).
  rewrite run_cleanup_clears by exact Ht.
  match goal with |- reset_effect ?s = _ =>
    assert (E : exists v, s = set_targetRef v (set_timers []
       {| props := p; scale := memo p st; camera := camera st; controls := c;
          targetRef := targetRef st; rotation_y := rotation_y st;
          clock := clock st; timers := timers st; next_timer := next_timer st;
          cleanup := cleanup st; fired := fired st |})) end.
  { destruct (highlight_deps_changed p st).
    - eexists. apply highlight_effect_only.
    - exists (targetRef st). reflexivity. }
  destruct E as [v ->].
  rewrite (reset_effect_homes _ n); [reflexivity | exact Hn | reflexivity].
Qed.

Lemma float_neq (a b : float) : (a =? b) = false -> is_nan a = false -> a <> b.
Proof.
  intros H Hn E. subst b. unfold is_nan in Hn. rewrite H in Hn. discriminate.
Qed.

Lemma home_scaled (sc : JS.number) :
  in_range sc = true -> home sc = multiplyScalar homeOffset (JS.Math_max 1 sc).
Proof.
  intros H. unfold home, multiplyScalar, homeOffset. simpl.
  destruct (in_range_facts sc H) as (Hn & _).
  assert (Hm : in_range (JS.Math_max 1 sc) = true).
  { destruct (Math_max_cases 1 sc eq_refl Hn) as [[E _]|[E _]]; rewrite E;
      [reflexivity | exact H]. }
  destruct (in_range_facts _ Hm) as (_ & _ & _ & E). now rewrite E.
Qed.


Lemma memo_in_range (p : Props) (st : Scene) :
  in_range (scale st) = true -> in_range (memo p st) = true.
Proof.
  intros H. unfold memo. destruct (_ =? _)%nat; auto using scale_of_in_range.
Qed.

Lemma well_formed_parts (st : Scene) :
  well_formed st = true <-> tidy st = true /\ in_range (scale st) = true.
Proof. unfold well_formed. apply andb_true_iff. Qed.

Lemma rerender_selection (p : Props) (c : option Controls) (st : Scene) :
  reset_deps_changed p c st = false ->
  rerender p c st =
  (if highlight_deps_changed p st then highlight_effect else fun s => s)
    {| props := p; scale := memo p st; camera := camera st; controls := c;
       targetRef := targetRef st; rotation_y := rotation_y st;
       clock := clock st; timers := timers st; next_timer := next_timer st;
       cleanup := cleanup st; fired := fired st |}.
Proof.
  intros H. unfold rerender. rewrite H.
  now destruct (highlight_deps_changed p st).
Qed.

Lemma rerender_selection_focus (p : Props) (c : option Controls) (st : Scene)
    (h : string) (found : Asteroid) :
  reset_deps_changed p c st = false ->
  same_highlight (highlightId (props st)) (highlightId p) = false ->
  highlightId p = Some h ->
  JS.falsy_string h = false ->
  find (fun a => String.eqb (id a) h) (asteroids p) = Some found ->
  rerender p c st =
    {| props := p; scale := memo p st; camera := camera st; controls := c;
       targetRef := Some (multiplyScalar (spread (position found)) (memo p st));
       rotation_y := rotation_y st;
       clock := clock st; timers := timers st; next_timer := next_timer st;
       cleanup := cleanup st; fired := fired st |}.
Proof.
  intros Hr Hs Hh Hn Hf. rewrite (rerender_selection p c st Hr).
  unfold highlight_deps_changed. rewrite Hs. simpl.
  unfold highlight_effect. simpl. now rewrite Hh, Hn, Hf.
Qed.

(** After a reset the focus is the origin until 600 ms have passed, and no
    focus from then on. *)
Lemma homing_window (st : Scene) (t : nat) (es : list Event) :
  timers st = [(t, (clock st + 600)%nat)] -> forallb quiet es = true ->
  targetRef (run es st) =
    (if (duration es <? 600)%nat then targetRef st else None) /\
  fired (run es st) =
    (fired st + if (duration es <? 600)%nat then 0 else 1)%nat.
Proof.
  intros Ht Hq.
  destruct (run_quiet_pending t _ es st Hq Ht) as (_ & _ & _ & _ & _ & H); [lia|].
  replace (clock st + duration es <? clock st + 600)%nat
    with (duration es <? 600)%nat in H.
  - destruct (duration es <? 600)%nat; destruct H as (_ & -> & ->);
      split; auto; lia.
  - destruct (Nat.ltb_spec (duration es) 600), (Nat.ltb_spec (clock st + duration es) (clock st + 600)); auto; lia.
Qed.
Lemma mount_reset (p : Props) (c : option Controls) (cam : Camera) (n : JS.number) :
  resetSignal p = Some n ->
  mount p c cam =
  {| props := p; scale := scale_of (asteroids p);
     camera :=
       match c with
       | Some _ => position_copy (home (scale_of (asteroids p))) cam
       | None => lookAt origin (position_copy (home (scale_of (asteroids p))) cam)
       end;
     controls :=
       option_map (fun c0 => update (allow_rotation (set_target origin c0))) c;
     targetRef := Some origin; rotation_y := 0; clock := 0;
     timers := [(0, 600)]%nat; next_timer := 1; cleanup := Some 0%nat;
     fired := 0 |}.
Proof.
  intros Hn. unfold mount. rewrite highlight_effect_only.
  rewrite (reset_effect_homes _ n); [reflexivity | exact Hn | reflexivity].
Qed.

Lemma tidy_ext (s s' : Scene) :
  timers s' = timers s -> cleanup s' = cleanup s -> clock s' = clock s ->
  tidy s' = tidy s.
Proof. unfold tidy. now intros -> -> ->. Qed.

Lemma reset_effect_off (st : Scene) :
  resetSignal (props st) = None -> reset_effect st = set_cleanup None st.
Proof. intros H. unfold reset_effect. now rewrite H. Qed.

Lemma well_formed_mount (p : Props) (c : option Controls) (cam : Camera) :
  well_formed (mount p c cam) = true.
Proof.
  apply well_formed_parts.
  destruct (resetSignal p) as [n|] eqn:E.
  - rewrite (mount_reset p c cam n E). split; [reflexivity|].
    apply scale_of_in_range.
  - unfold mount. rewrite highlight_effect_only, reset_effect_off by exact E.
    split; [reflexivity|]. apply scale_of_in_range.
Qed.

Lemma well_formed_step (st : Scene) (e : Event) :
  well_formed st = true -> well_formed (step st e) = true.
Proof.
  intros H. apply well_formed_parts in H. destruct H as [Ht Hr].
  apply well_formed_parts. destruct e as [p c| |ms]; simpl.
  - pose proof (memo_in_range p st Hr) as Hm.
    destruct (reset_deps_changed p c st) eqn:Ed.
    + destruct (resetSignal p) as [n|] eqn:En.
      * rewrite (rerender_reset p c st n Ht En Ed). split; [|exact Hm].
        unfold tidy. simpl. rewrite Nat.eqb_refl. apply Nat.ltb_lt. lia.
      * unfold rerender. rewrite Ed, run_cleanup_clears by exact Ht.
        destruct (highlight_deps_changed p st);
          [rewrite highlight_effect_only|];
          rewrite reset_effect_off by exact En; split; try reflexivity; exact Hm.
    + rewrite (rerender_selection p c st Ed).
      destruct (highlight_deps_changed p st);
        [rewrite highlight_effect_only|]; split; try exact Hm;
        rewrite <- Ht; now apply tidy_ext.
  - destruct (useFrame_keeps st) as (_ & K2 & K3 & K4 & _ & K6 & _).
    split; [|now rewrite K6]. rewrite <- Ht. now apply tidy_ext.
  - destruct (tidy_cases st Ht) as [E|(t & due & E & C & L)].
    + rewrite (elapse_idle ms st E). split; [reflexivity|exact Hr].
    + destruct (Nat.lt_ge_cases (clock st + ms) due) as [L'|L'].
      * rewrite (elapse_pending ms st t due E L'). split; [|exact Hr].
        unfold tidy. simpl. rewrite C, Nat.eqb_refl. now apply Nat.ltb_lt.
      * rewrite (elapse_due ms st t due E L'). split; [reflexivity|exact Hr].
Qed.

Lemma well_formed_run (es : list Event) :
  forall st, well_formed st = true -> well_formed (run es st) = true.
Proof.
  induction es as [|e es IH]; intros st H; simpl; auto using well_formed_step.
Qed.

(** * The Scale Normalizer in exact arithmetic *)

Module ExactFacts.
Import Exact.
Local Open Scope R_scope.

Lemma length_nonneg (p : point) : 0 <= length p.
Proof. destruct p as [[a b] c]. apply sqrt_pos. Qed.









End ExactFacts.

(** * The claims *)

(** C1 (as the code has it).  For an empty entity collection the reduction
    yields 0, the [|| 1] floor makes [maxDist] 1, [s] is [30 / 1 = 30] and the
    clamp to [[0.02, 5]] returns 5: the scale of an empty scene is 5, whatever
    the other props.  The [: 1] branch of the conditional is never taken. *)
Theorem empty_scene_scale :
  maxDist [] = 1 /\ scale_of [] = 5 /\
  forall ref hl rs c cam, scale (mount (Build_Props [] ref hl rs) c cam) = 5.
Proof.
  repeat split. intros ref hl rs c cam. unfold mount, reset_effect, highlight_effect.
  simpl. destruct rs; destruct hl as [h|]; simpl;
    try destruct (JS.falsy_string h); destruct c; reflexivity.
Qed.

(** C1, the claim as stated: the scale of the empty collection is not 1. *)
Lemma empty_scene_scale_is_not_one :
  scale_of [] = 5 /\ scale_of [] <> 1.
Proof. split; [reflexivity | apply float_neq; reflexivity]. Qed.

(** C2, the claim as stated: while the camera is focusing on the asteroid at
    render position [(30, 0, 0)], [highlightId] becomes ["433"], an id no
    asteroid has; the focus is still [(30, 0, 0)], not cleared. *)
Lemma unknown_selection_keeps_focus :
  targetRef focusing = Some (vec3 30 0 0) /\
  find (fun a => String.eqb (id a) "433") (asteroids unknown_selected) = None /\
  targetRef (rerender unknown_selected (controls focusing) focusing)
    = Some (vec3 30 0 0) /\
  targetRef (rerender unknown_selected (controls focusing) focusing) <> None.
Proof. repeat split. discriminate. Qed.

(** C2 (as the code has it).  A render in which only the selection changes, to
    an id [h] that no asteroid of the scene has, raises nothing and leaves the
    camera, the controls and the pending timeout alone.  The focus is left as
    it was: no focus stays no focus, and an active focus is kept, not
    cleared.  Only the empty string, which is falsy like [null], clears the
    focus. *)
Theorem unknown_selection_is_a_no_op (p : Props) (c : option Controls) (st : Scene)
    (h : string) :
  reset_deps_changed p c st = false ->
  same_highlight (highlightId (props st)) (highlightId p) = false ->
  highlightId p = Some h ->
  find (fun a => String.eqb (id a) h) (asteroids p) = None ->
  let st' := rerender p c st in
  targetRef st' = (if JS.falsy_string h then None else targetRef st) /\
  camera st' = camera st /\
  controls st' = c /\
  timers st' = timers st /\
  fired st' = fired st.
Proof.
  intros Hr Hs Hh Hf. simpl. rewrite (rerender_selection p c st Hr).
  unfold highlight_deps_changed. rewrite Hs. simpl.
  unfold highlight_effect. simpl. rewrite Hh.
  destruct (JS.falsy_string h); simpl; [repeat split|].
  rewrite Hf. repeat split.
Qed.

Lemma unknown_selection_is_a_no_op_witness :
  reset_deps_changed unknown_selected (controls focusing) focusing = false /\
  targetRef (rerender unknown_selected (controls focusing) focusing)
    = targetRef focusing.
Proof.
  split; [reflexivity|].
  exact (proj1 (unknown_selection_is_a_no_op unknown_selected (controls focusing) focusing
                  "433" eq_refl eq_refl eq_refl eq_refl)).
Defined.

(** C3, the claim as stated: the asteroid is selected 100 ms into the homing
    window of the mount; the focus becomes its render position [(30, 0, 0)],
    is still there 499 ms later, and is cleared by the homing timeout when
    500 ms have passed. *)
Lemma homing_timer_clears_new_focus :
  targetRef (elapse 100 mounted) = Some origin /\
  targetRef reselected = Some (vec3 30 0 0) /\
  targetRef (elapse 499 reselected) = Some (vec3 30 0 0) /\
  targetRef (elapse 500 reselected) = None.
Proof. repeat split. Qed.

(** C3 (as the code has it).  While the homing timeout is pending (due at
    [due]), a render in which only the selection changes, to the id of an
    asteroid of the scene, sets the focus to that asteroid's render position
    and does not cancel the timeout.  Through frames and the passing of time
    the focus stays there until the timeout is due; its expiry then clears
    the newly set focus. *)
Theorem selection_during_homing (p : Props) (c : option Controls) (st : Scene)
    (t due : nat) (h : string) (found : Asteroid) :
  well_formed st = true ->
  timers st = [(t, due)] ->
  reset_deps_changed p c st = false ->
  same_highlight (highlightId (props st)) (highlightId p) = false ->
  highlightId p = Some h ->
  JS.falsy_string h = false ->
  find (fun a => String.eqb (id a) h) (asteroids p) = Some found ->
  let st' := rerender p c st in
  let focus := multiplyScalar (spread (position found)) (scale st') in
  targetRef st' = Some focus /\
  timers st' = [(t, due)] /\
  forall es, forallb quiet es = true ->
    targetRef (run es st')
      = if (clock st + duration es <? due)%nat then Some focus else None.
Proof.
  intros Hw Ht Hr Hs Hh Hn Hf.
  apply well_formed_parts in Hw. destruct Hw as [Hty _].
  destruct (tidy_cases st Hty) as [E|(t' & due' & E & _ & Hc)]; [congruence|].
  assert (due' = due) by congruence. subst due'.
  simpl. rewrite (rerender_selection p c st Hr).
  unfold highlight_deps_changed. rewrite Hs. simpl.
  unfold highlight_effect. simpl. rewrite Hh, Hn, Hf. simpl.
  split; [reflexivity|]. split; [exact Ht|].
  intros es Hq.
  match goal with |- targetRef (run es ?s) = _ =>
    destruct (run_quiet_pending t due es s Hq Ht Hc)
      as (_ & _ & _ & _ & _ & H) end.
  simpl in H. destruct (clock st + duration es <? due)%nat; tauto.
Qed.

Lemma selection_during_homing_witness :
  well_formed (elapse 100 mounted) = true /\
  let st' := rerender ceres_selected (controls mounted) (elapse 100 mounted) in
  targetRef st' = Some (vec3 30 0 0) /\
  targetRef (run [Frame; Elapse 500] st') = None.
Proof.
  pose proof (selection_during_homing ceres_selected (controls mounted)
                (elapse 100 mounted) 0 600 "2000001" ceres
                eq_refl eq_refl eq_refl eq_refl eq_refl eq_refl eq_refl) as H.
  split; [reflexivity|]. split.
  - exact (proj1 H).
  - exact (proj2 (proj2 H) [Frame; Elapse 500] eq_refl).
Defined.

(** C4.  A render in which the reset signal has changed (to a number), from
    any state the component can be in: the camera position is set, with no
    interpolation, to [homeOffset] times [Math.max(1, scale)]; the focus is the
    origin; a controls object, if there is one, has its target at the origin,
    each of [enableRotate] and [enabled] that it has set to [true], and
    [update()] called once; exactly one timeout is pending, due 600 ms from
    now.  Through frames and the passing of time with no further render, the
    focus is the origin until 600 ms have passed and null from then on. *)
Theorem reset_signal_homes (p : Props) (c : option Controls) (st : Scene)
    (n : JS.number) :
  well_formed st = true ->
  resetSignal p = Some n ->
  same_signal (resetSignal (props st)) (resetSignal p) = false ->
  let st' := rerender p c st in
  cam_position (camera st')
    = multiplyScalar homeOffset (JS.Math_max 1 (scale st')) /\
  targetRef st' = Some origin /\
  controls st'
    = option_map
        (fun c0 =>
           {| ctl_ref := ctl_ref c0; target := Some origin;
              enableRotate := option_map (fun _ => true) (enableRotate c0);
              enabled := option_map (fun _ => true) (enabled c0);
              updates := S (updates c0) |}) c /\
  timers st' = [(next_timer st, (clock st + 600)%nat)] /\
  forall es, forallb quiet es = true ->
    targetRef (run es st')
      = if (duration es <? 600)%nat then Some origin else None.
Proof.
  intros Hw Hn Hs. apply well_formed_parts in Hw. destruct Hw as [Ht Hr].
  assert (Hd : reset_deps_changed p c st = true)
    by (unfold reset_deps_changed; now rewrite Hs).
  simpl. rewrite (rerender_reset p c st n Ht Hn Hd). simpl.
  split; [|split; [|split; [|split]]]; try reflexivity.
  - rewrite <- (home_scaled _ (memo_in_range p st Hr)). now destruct c.
  - intros es Hq.
    match goal with |- targetRef (run es ?s) = _ =>
      destruct (homing_window s (next_timer st) es eq_refl Hq) as [H _] end.
    exact H.
Qed.

Lemma reset_signal_homes_witness :
  well_formed mounted = true /\
  cam_position (camera (rerender centered_once (controls mounted) mounted))
    = vec3 0 20 40 /\
  targetRef (run [Frame; Elapse 600]
               (rerender centered_once (controls mounted) mounted)) = None.
Proof.
  pose proof (reset_signal_homes centered_once (controls mounted) mounted 1
                eq_refl eq_refl eq_refl) as H.
  split; [reflexivity|]. split.
  - exact (proj1 H).
  - exact (proj2 (proj2 (proj2 (proj2 H))) [Frame; Elapse 600] eq_refl).
Defined.

(** C5.  Two renders in which the reset signal changes, the second less than
    600 ms after the first, with only frames and the passing of time in
    between.  No timeout callback has run when the second render is done; the
    first timeout is gone and exactly one is pending, due 600 ms after the
    second signal.  From then on, through frames and the passing of time, the
    callback runs exactly once, when 600 ms have passed since the second
    signal: until then the focus is the origin, from then on it is null. *)
Theorem second_reset_rearms (p1 p2 : Props) (c1 c2 : option Controls)
    (st : Scene) (n1 n2 : JS.number) (between : list Event) :
  well_formed st = true ->
  resetSignal p1 = Some n1 ->
  same_signal (resetSignal (props st)) (resetSignal p1) = false ->
  resetSignal p2 = Some n2 ->
  same_signal (resetSignal p1) (resetSignal p2) = false ->
  forallb quiet between = true ->
  (duration between < 600)%nat ->
  let st2 := rerender p2 c2 (run between (rerender p1 c1 st)) in
  fired st2 = fired st /\
  targetRef st2 = Some origin /\
  timers st2 = [(S (next_timer st), (clock st + duration between + 600)%nat)] /\
  forall es, forallb quiet es = true ->
    fired (run es st2)
      = (fired st + if (duration es <? 600)%nat then 0 else 1)%nat /\
    targetRef (run es st2)
      = if (duration es <? 600)%nat then Some origin else None.
Proof.
  intros Hw Hn1 Hs1 Hn2 Hs2 Hq Hd.
  apply well_formed_parts in Hw. destruct Hw as [Ht Hr].
  assert (Hd1 : reset_deps_changed p1 c1 st = true)
    by (unfold reset_deps_changed; now rewrite Hs1).
  simpl. rewrite (rerender_reset p1 c1 st n1 Ht Hn1 Hd1).
  set (st1 := Build_Scene _ _ _ _ _ _ _ _ _ _ _).
  set (s := run between st1).
  assert (K : cleanup s = Some (next_timer st) /\ props s = p1 /\
              next_timer s = S (next_timer st) /\
              clock s = (clock st + duration between)%nat /\
              timers s = [(next_timer st, (clock st + 600)%nat)] /\
              fired s = fired st).
  { destruct (run_quiet_pending (next_timer st) (clock st + 600)%nat
                between st1 Hq eq_refl) as (_ & K2 & K3 & K4 & K5 & K6);
      [simpl; lia|].
    replace (clock st1 + duration between <? clock st + 600)%nat with true in K6
      by (symmetry; apply Nat.ltb_lt; simpl; lia).
    destruct K6 as (K6 & _ & K8). auto 7. }
  destruct K as (K2 & K3 & K4 & K5 & K6 & K8). clearbody s. clear st1.
  assert (Hts : tidy s = true).
  { unfold tidy. rewrite K6, K2, K5, Nat.eqb_refl. simpl. apply Nat.ltb_lt. lia. }
  assert (Hd2 : reset_deps_changed p2 c2 s = true)
    by (unfold reset_deps_changed; now rewrite K3, Hs2).
  rewrite (rerender_reset p2 c2 s n2 Hts Hn2 Hd2). simpl.
  rewrite K4, K5, K8. split; [|split; [|split]]; try reflexivity.
  intros es Hqs. split.
  - match goal with |- fired (run es ?s') = _ =>
      destruct (homing_window s' (S (next_timer st)) es) as [_ H];
        [reflexivity | assumption | exact H] end.
  - match goal with |- targetRef (run es ?s') = _ =>
      destruct (homing_window s' (S (next_timer st)) es) as [H _];
        [reflexivity | assumption | exact H] end.
Qed.

Lemma second_reset_rearms_witness :
  well_formed mounted = true /\
  let st2 := rerender centered_twice None
               (run [Frame; Elapse 400]
                  (rerender centered_once None mounted)) in
  timers st2 = [(2, 1000)]%nat /\
  fired (run [Elapse 599] st2) = 0%nat /\
  fired (run [Elapse 599; Frame; Elapse 1; Elapse 5000] st2) = 1%nat.
Proof.
  pose proof (second_reset_rearms centered_once centered_twice None None mounted
                1 2 [Frame; Elapse 400] eq_refl eq_refl eq_refl eq_refl eq_refl
                eq_refl) as H.
  assert (L : (duration [Frame; Elapse 400] < 600)%nat) by (simpl; lia).
  specialize (H L). destruct H as (_ & _ & H3 & H4).
  split; [reflexivity|]. split; [exact H3|]. split.
  - exact (proj1 (H4 [Elapse 599] eq_refl)).
  - exact (proj1 (H4 [Elapse 599; Frame; Elapse 1; Elapse 5000] eq_refl)).
Defined.

(** C6.  What is drawn: one body per asteroid, in the order of the
    collection; its position is the raw position times the scale,
    elementwise; its orbit line has the raw orbit's points, each times the
    scale, elementwise, in the same order and number.  The focus point the
    highlight effect computes for an asteroid is its drawn position.  For the
    scene of one asteroid at [[100, 0, 0]]: [maxDist] is 100, the scale is
    [30 / 100], which is the number [0.3], and the drawn position is
    [[30, 0, 0]]. *)
Theorem projection_linear (scale : JS.number) (hl : option string)
    (asteroids : list Asteroid) :
  map key (bodies (view scale hl asteroids)) = map id asteroids /\
  map scaledPos (bodies (view scale hl asteroids))
    = map (fun a => scale3 scale (position a)) asteroids /\
  map points (bodies (view scale hl asteroids))
    = map (fun a => map (scale3 scale) (orbit a)) asteroids /\
  (forall a,
      List.length (points (draw scale hl a)) = List.length (orbit a) /\
      spread (scaledPos (draw scale hl a))
        = multiplyScalar (spread (position a)) scale) /\
  maxDist [ceres] = 100 /\
  scale_of [ceres] = 30 / 100 /\
  scale_of [ceres] = 0.3 /\
  map scaledPos (bodies (rendered mounted)) = [(30, 0, 0)].
Proof.
  unfold view. simpl. rewrite !map_map.
  split; [|split; [|split; [|split]]]; try reflexivity; [|repeat split].
  intros a. split; [apply length_map|].
  simpl. now destruct (position a) as [[a0 a1] a2].
Qed.



(** C8.  For every entity collection (empty or not, whatever numbers the
    positions hold) the scale factor is at least [0.02] and at most [5], so it
    is non-negative and finite.  It is a function of the positions alone: the
    scale a mounted component holds is [scale_of] of the positions, whatever
    the other props; a later render keeps it when [data.asteroids] is the
    same array and recomputes it from the new positions otherwise; a frame
    does not touch it. *)
Theorem scale_bounded (entities : list Asteroid) :
  (0.02 <=? scale_of entities) = true /\
  (scale_of entities <=? 5) = true /\
  (0 <=? scale_of entities) = true /\
  is_finite (scale_of entities) = true /\
  (forall ref hl rs c cam,
      scale (mount (Build_Props entities ref hl rs) c cam) = scale_of entities) /\
  (forall p c st,
      scale (rerender p c st)
        = if (asteroids_ref (props st) =? asteroids_ref p)%nat then scale st
          else scale_of (asteroids p)) /\
  (forall st, scale (useFrame st) = scale st).
Proof.
  pose proof (scale_of_in_range entities) as H.
  destruct (in_range_facts _ H) as (_ & Hf & Hp & _).
  unfold in_range in H. apply andb_true_iff in H. destruct H as [H1 H2].
  split; [exact H1|]. split; [exact H2|]. split; [now apply ltb_leb|].
  split; [exact Hf|]. split; [|split].
  - intros ref hl rs c cam. unfold mount.
    rewrite (proj1 (proj2 (effects_keep_scale _))).
    now rewrite (proj1 (effects_keep_scale _)).
  - exact rerender_scale.
  - intros st. now destruct (useFrame_keeps st) as (_ & _ & _ & _ & _ & K & _).
Qed.


(** C10.  [App] starts with the reset signal at the number 0 and mounts the
    component with it; the mount runs the reset effect: the camera is at the
    home position, the focus is the origin and one timeout is pending, due at
    600 ms; with no render after the mount its callback runs once, when
    600 ms have passed, and clears the focus. *)
Theorem mount_homes (data : list Asteroid) (ref : nat) (c : option Controls)
    (cam : Camera) :
  let st := mount (App.scene_props data ref App.initial) c cam in
  resetSignal (props st) = Some 0 /\
  cam_position (camera st)
    = multiplyScalar homeOffset (JS.Math_max 1 (scale_of data)) /\
  targetRef st = Some origin /\
  timers st = [(0, 600)]%nat /\
  fired st = 0%nat /\
  forall es, forallb quiet es = true ->
    targetRef (run es st)
      = (if (duration es <? 600)%nat then Some origin else None) /\
    fired (run es st) = if (duration es <? 600)%nat then 0%nat else 1%nat.
Proof.
  intros st. subst st.
  rewrite (mount_reset (App.scene_props data ref App.initial) c cam 0 eq_refl).
  simpl.
  split; [|split; [|split; [|split; [|split]]]]; try reflexivity.
  - rewrite <- (home_scaled _ (scale_of_in_range data)). now destruct c.
  - intros es Hq.
    match goal with |- targetRef (run es ?s) = _ /\ _ =>
      destruct (homing_window s 0 es eq_refl Hq) as [H1 H2] end.
    split; [exact H1|]. rewrite H2. simpl. now destruct (duration es <? 600)%nat.
Qed.

(** * Further properties *)

(** In every state the component reaches from its mount, at most one timeout
    is pending (the one the cleanup holds, not overdue) and the scale is in
    [[0.02, 5]]. *)
Theorem reachable_well_formed (p : Props) (c : option Controls) (cam : Camera)
    (es : list Event) :
  well_formed (run es (mount p c cam)) = true.
Proof. apply well_formed_run, well_formed_mount. Qed.

(** Unmounting in any reachable state leaves no timeout pending. *)
Theorem unmount_cancels_timeout (p : Props) (c : option Controls) (cam : Camera)
    (es : list Event) :
  timers (unmount (run es (mount p c cam))) = [].
Proof.
  unfold unmount. rewrite run_cleanup_clears; [reflexivity|].
  pose proof (well_formed_run es _ (well_formed_mount p c cam)) as H.
  now apply well_formed_parts in H.
Qed.

(** A selection is not time-bounded: with no timeout pending, after a render
    in which only the selection changes, to the id of an asteroid of the
    scene, the focus is that asteroid's render position through any number of
    frames and any passing of time. *)
Theorem selection_focus_persists (p : Props) (c : option Controls) (st : Scene)
    (h : string) (found : Asteroid) :
  timers st = [] ->
  reset_deps_changed p c st = false ->
  same_highlight (highlightId (props st)) (highlightId p) = false ->
  highlightId p = Some h ->
  JS.falsy_string h = false ->
  find (fun a => String.eqb (id a) h) (asteroids p) = Some found ->
  forall es, forallb quiet es = true ->
    targetRef (run es (rerender p c st))
      = Some (multiplyScalar (spread (position found))
                             (scale (rerender p c st))).
Proof.
  intros Ht Hr Hs Hh Hn Hf es Hq.
  rewrite (rerender_selection_focus p c st h found Hr Hs Hh Hn Hf).
  match goal with |- targetRef (run es ?s) = _ =>
    destruct (run_quiet_idle es s Hq Ht) as (_ & H & _) end.
  exact H.
Qed.

Lemma selection_focus_persists_witness :
  timers settled = [] /\
  targetRef (run [Frame; Elapse 5000; Frame] focusing) = Some (vec3 30 0 0).
Proof.
  split; [reflexivity|].
  exact (selection_focus_persists ceres_selected (controls settled) settled
           "2000001" ceres eq_refl eq_refl eq_refl eq_refl eq_refl eq_refl
           [Frame; Elapse 5000; Frame] eq_refl).
Defined.

(** A render in which only the selection changes, to [null], clears the focus
    and leaves the camera where it is. *)
Theorem deselect_clears_focus (p : Props) (c : option Controls) (st : Scene) :
  reset_deps_changed p c st = false ->
  same_highlight (highlightId (props st)) (highlightId p) = false ->
  highlightId p = None ->
  targetRef (rerender p c st) = None /\ camera (rerender p c st) = camera st.
Proof.
  intros Hr Hs Hh. rewrite (rerender_selection p c st Hr).
  unfold highlight_deps_changed. rewrite Hs. simpl.
  unfold highlight_effect. simpl. now rewrite Hh.
Qed.

Lemma deselect_clears_focus_witness :
  targetRef focusing = Some (vec3 30 0 0) /\
  targetRef (rerender (App.scene_props [ceres] 0 App.initial)
                      (controls focusing) focusing) = None.
Proof.
  split; [reflexivity|].
  exact (proj1 (deselect_clears_focus (App.scene_props [ceres] 0 App.initial)
                  (controls focusing) focusing eq_refl eq_refl eq_refl)).
Defined.

(** The reset effect also depends on [controls]: a render in which the
    controls binding is another object than in the last render (the ref was
    attached in between, say) runs it again although the reset signal has not
    changed, overriding a selection made in the same render. *)
Theorem controls_change_rehomes (p : Props) (c : option Controls) (st : Scene)
    (n : JS.number) :
  well_formed st = true ->
  resetSignal p = Some n ->
  same_controls (controls st) c = false ->
  targetRef (rerender p c st) = Some origin /\
  cam_position (camera (rerender p c st)) = home (scale (rerender p c st)) /\
  timers (rerender p c st) = [(next_timer st, (clock st + 600)%nat)].
Proof.
  intros Hw Hn Hc. apply well_formed_parts in Hw. destruct Hw as [Ht _].
  assert (Hd : reset_deps_changed p c st = true)
    by (unfold reset_deps_changed; rewrite Hc; apply orb_true_r).
  rewrite (rerender_reset p c st n Ht Hn Hd). simpl.
  repeat split. now destruct c.
Qed.

Lemma controls_change_rehomes_witness :
  well_formed bare = true /\
  targetRef (rerender ceres_selected (Some orbit_controls) bare) = Some origin.
Proof.
  split; [reflexivity|].
  exact (proj1 (controls_change_rehomes ceres_selected (Some orbit_controls) bare
                  0 eq_refl eq_refl eq_refl)).
Defined.

(** * Positions, sizes and order *)

(** ** NaN, zero and infinity through the arithmetic *)

Lemma is_nan_true (a : float) : is_nan a = true <-> a = nan.
Proof.
  split; [|now intros ->].
  intros H. apply Prim2SF_inj. change (Prim2SF nan) with S754_nan.
  destruct (Prim2SF a) eqn:E; try reflexivity;
    assert (N : is_nan a = false) by (apply is_nan_false; rewrite E; discriminate);
    congruence.
Qed.

Lemma mul_nan_l (b : float) : nan * b = nan.
Proof. apply Prim2SF_inj. rewrite mul_spec. reflexivity. Qed.

Lemma mul_nan_r (a : float) : a * nan = nan.
Proof.
  apply Prim2SF_inj. rewrite mul_spec.
  change (Prim2SF nan) with S754_nan. now destruct (Prim2SF a).
Qed.

Lemma add_nan_l (b : float) : nan + b = nan.
Proof. apply Prim2SF_inj. rewrite add_spec. reflexivity. Qed.

Lemma add_nan_r (a : float) : a + nan = nan.
Proof.
  apply Prim2SF_inj. rewrite add_spec.
  change (Prim2SF nan) with S754_nan. now destruct (Prim2SF a).
Qed.

Lemma binary_round_aux_nonneg (prec emax mx ex : Z) (lx : location) :
  (0 <= mx)%Z -> nonneg (binary_round_aux prec emax false mx ex lx).
Proof.
  intros H. unfold binary_round_aux.
  pose proof (shr_fexp_nonneg prec emax mx ex lx H) as H1.
  destruct (shr_fexp prec emax mx ex lx) as [mrs' e']. simpl in H1.
  pose proof (shr_fexp_nonneg prec emax _ e' loc_Exact
                (round_nearest_even_nonneg _ (loc_of_shr_record mrs') H1)) as H2.
  destruct (shr_fexp prec emax _ e' loc_Exact) as [mrs'' e'']. simpl in H2.
  destruct (shr_m mrs'') as [|m|m].
  - now left.
  - destruct (e'' <=? emax - prec)%Z; [right; right; eauto | right; now left].
  - lia.
Qed.

Lemma SFmul_square_nonneg (prec emax : Z) (f : spec_float) :
  f <> S754_nan -> nonneg (SFmul prec emax f f).
Proof.
  destruct f as [s|s| |s m e]; simpl; intros H; try congruence.
  - left. now destruct s.
  - right. left. now destruct s.
  - replace (xorb s s) with false by now destruct s.
    now apply binary_round_aux_nonneg.
Qed.

Lemma SFadd_nonneg (prec emax : Z) (f g : spec_float) :
  nonneg f -> nonneg g -> nonneg (SFadd prec emax f g).
Proof.
  intros [->|[->|(m & e & ->)]] [->|[->|(m' & e' & ->)]]; simpl;
    try (now left); try (right; now left); try (right; right; eauto; fail).
  unfold binary_normalize. simpl.
  unfold binary_round.
  destruct (shl_align _ _ _) as [mz ez].
  now apply binary_round_aux_nonneg.
Qed.

Lemma SFadd_infinity (prec emax : Z) (f g : spec_float) :
  nonneg f -> nonneg g ->
  f = S754_infinity false \/ g = S754_infinity false ->
  SFadd prec emax f g = S754_infinity false.
Proof.
  intros [->|[->|(m & e & ->)]] [->|[->|(m' & e' & ->)]] [H|H];
    try discriminate; reflexivity.
Qed.

Lemma SFsqrt_nonneg (prec emax : Z) (f : spec_float) :
  nonneg f -> nonneg (SFsqrt prec emax f).
Proof.
  intros [->|[->|(m & e & ->)]]; simpl; [now left | right; now left |].
  unfold SFsqrt_core_binary.
  set (m' := match (e - 2 * _)%Z with
             | 0%Z => Z.pos m | Z.pos _ => Z.shiftl (Z.pos m) _ | Z.neg _ => 0%Z end).
  pose proof (Z.sqrtrem_sqrt m') as Hs. pose proof (Z.sqrt_nonneg m') as Hq.
  destruct (Z.sqrtrem m') as [q r]. simpl in Hs. subst q.
  now apply binary_round_aux_nonneg.
Qed.

Lemma nonneg_not_nan (a : float) : nonneg (Prim2SF a) -> is_nan a = false.
Proof.
  intros H. apply is_nan_false.
  destruct H as [->|[->|(m & e & ->)]]; discriminate.
Qed.

Lemma square_nonneg (a : float) : is_nan a = false -> nonneg (Prim2SF (a * a)).
Proof.
  intros H. rewrite mul_spec. apply SFmul_square_nonneg. now apply is_nan_false.
Qed.

Lemma is_infinity_true (a : float) :
  is_infinity a = true -> exists s, Prim2SF a = S754_infinity s.
Proof.
  unfold is_infinity. rewrite FloatAxioms.eqb_spec, abs_spec.
  change (Prim2SF infinity) with (S754_infinity false).
  destruct (Prim2SF a) as [s|s| |s m e]; try discriminate. eauto.
Qed.

Lemma is_zero_true (a : float) :
  is_zero a = true -> exists s, Prim2SF a = S754_zero s.
Proof.
  unfold is_zero. rewrite FloatAxioms.eqb_spec.
  change (Prim2SF zero) with (S754_zero false).
  destruct (Prim2SF a) as [s|s| |s m e];
    try discriminate; try (destruct s; discriminate); eauto.
Qed.

Lemma square_infinity (a : float) : is_infinity a = true -> a * a = infinity.
Proof.
  intros H. destruct (is_infinity_true a H) as [s E].
  apply Prim2SF_inj. rewrite mul_spec, E. now destruct s.
Qed.

Lemma square_zero (a : float) : is_zero a = true -> a * a = 0.
Proof.
  intros H. destruct (is_zero_true a H) as [s E].
  apply Prim2SF_inj. rewrite mul_spec, E. now destruct s.
Qed.

Lemma length_nan (v : Vector3) :
  is_nan (x v) || is_nan (y v) || is_nan (z v) = true -> length v = nan.
Proof.
  unfold length. intros H.
  apply orb_true_iff in H. destruct H as [H|H];
    [apply orb_true_iff in H; destruct H as [H|H]|];
    apply is_nan_true in H; rewrite H;
    rewrite ?mul_nan_l, ?add_nan_l, ?add_nan_r, ?add_nan_l; reflexivity.
Qed.

Lemma length_origin (v : Vector3) :
  is_zero (x v) && is_zero (y v) && is_zero (z v) = true -> length v = 0.
Proof.
  unfold length. intros H.
  apply andb_true_iff in H. destruct H as [H Hz].
  apply andb_true_iff in H. destruct H as [Hx Hy].
  now rewrite (square_zero _ Hx), (square_zero _ Hy), (square_zero _ Hz).
Qed.

Lemma length_not_negative (v : Vector3) :
  is_nan (x v) || is_nan (y v) || is_nan (z v) = false ->
  nonneg (Prim2SF (length v)).
Proof.
  unfold length. intros H.
  apply orb_false_iff in H. destruct H as [H Hz].
  apply orb_false_iff in H. destruct H as [Hx Hy].
  rewrite sqrt_spec, !add_spec.
  apply SFsqrt_nonneg, SFadd_nonneg; [apply SFadd_nonneg|];
    now apply square_nonneg.
Qed.

Lemma length_infinity (v : Vector3) :
  is_nan (x v) || is_nan (y v) || is_nan (z v) = false ->
  is_infinity (x v) || is_infinity (y v) || is_infinity (z v) = true ->
  length v = infinity.
Proof.
  unfold length. intros H I.
  apply orb_false_iff in H. destruct H as [H Hz].
  apply orb_false_iff in H. destruct H as [Hx Hy].
  pose proof (square_nonneg _ Hx) as Nx. pose proof (square_nonneg _ Hy) as Ny.
  pose proof (square_nonneg _ Hz) as Nz.
  apply Prim2SF_inj. rewrite sqrt_spec, !add_spec.
  change (Prim2SF infinity) with (S754_infinity false).
  rewrite (SFadd_infinity prec emax); [reflexivity | | assumption |].
  - now apply SFadd_nonneg.
  - apply orb_true_iff in I. destruct I as [I|I].
    + left. apply SFadd_infinity; try assumption.
      apply orb_true_iff in I. destruct I as [I|I];
        rewrite (square_infinity _ I); auto.
    + right. now rewrite (square_infinity _ I).
Qed.

Lemma Math_max_nan_r (a : float) : JS.Math_max a nan = nan.
Proof. unfold JS.Math_max. now rewrite orb_true_r. Qed.

Lemma Math_max_nonneg (a b : float) :
  nonneg (Prim2SF a) -> nonneg (Prim2SF b) -> nonneg (Prim2SF (JS.Math_max a b)).
Proof.
  intros Ha Hb.
  destruct (Math_max_cases a b (nonneg_not_nan _ Ha) (nonneg_not_nan _ Hb))
    as [[-> _]|[-> _]]; assumption.
Qed.

Lemma infinity_leb (a : float) :
  nonneg (Prim2SF a) -> (infinity <=? a) = true -> a = infinity.
Proof.
  intros H. rewrite FloatAxioms.leb_spec.
  change (Prim2SF infinity) with (S754_infinity false).
  intros L. apply Prim2SF_inj. change (Prim2SF infinity) with (S754_infinity false).
  destruct H as [E|[E|(m & e & E)]]; rewrite E in *; try discriminate; reflexivity.
Qed.

Lemma Math_max_infinity_r (a : float) :
  nonneg (Prim2SF a) -> JS.Math_max a infinity = infinity.
Proof.
  intros Ha.
  destruct (Math_max_cases a infinity (nonneg_not_nan _ Ha) eq_refl)
    as [[E L]|[E _]]; rewrite E; [now apply infinity_leb | reflexivity].
Qed.

Lemma Math_max_infinity_l (b : float) :
  nonneg (Prim2SF b) -> JS.Math_max infinity b = infinity.
Proof.
  intros Hb.
  destruct (Math_max_cases infinity b eq_refl (nonneg_not_nan _ Hb))
    as [[E _]|[E L]]; rewrite E; [reflexivity | now apply infinity_leb].
Qed.

Lemma spread_has_nan (a : Asteroid) :
  has_nan a
  = is_nan (x (spread (position a))) || is_nan (y (spread (position a)))
    || is_nan (z (spread (position a))).
Proof. unfold has_nan, nan_in. now destruct (position a) as [[px py] pz]. Qed.

Lemma spread_has_infinity (a : Asteroid) :
  has_infinity a
  = is_infinity (x (spread (position a))) || is_infinity (y (spread (position a)))
    || is_infinity (z (spread (position a))).
Proof. unfold has_infinity. now destruct (position a) as [[px py] pz]. Qed.

Lemma spread_at_origin (a : Asteroid) :
  at_origin a
  = is_zero (x (spread (position a))) && is_zero (y (spread (position a)))
    && is_zero (z (spread (position a))).
Proof. unfold at_origin. now destruct (position a) as [[px py] pz]. Qed.

Lemma reduction_nan (l : list Asteroid) :
  forall m, m = nan \/ existsb has_nan l = true -> reduction l m = nan.
Proof.
  unfold reduction. induction l as [|a l IH]; intros m H; simpl in *.
  - destruct H as [H|H]; [exact H | discriminate].
  - apply IH. destruct H as [->|H]; [now left|].
    apply orb_true_iff in H. destruct H as [H|H]; [left | now right].
    rewrite spread_has_nan in H. rewrite (length_nan _ H).
    apply Math_max_nan_r.
Qed.

Lemma reduction_origin (l : list Asteroid) :
  forallb at_origin l = true -> reduction l 0 = 0.
Proof.
  unfold reduction. induction l as [|a l IH]; intros H; simpl in *; [reflexivity|].
  apply andb_true_iff in H. destruct H as [Ha H].
  rewrite spread_at_origin in Ha. rewrite (length_origin _ Ha).
  change (JS.Math_max 0 0) with 0. now apply IH.
Qed.

Lemma reduction_infinity (l : list Asteroid) :
  existsb has_nan l = false ->
  forall m, nonneg (Prim2SF m) ->
  m = infinity \/ existsb has_infinity l = true ->
  reduction l m = infinity.
Proof.
  unfold reduction. induction l as [|a l IH]; intros N m Hm H; simpl in *.
  - destruct H as [H|H]; [exact H | discriminate].
  - apply orb_false_iff in N. destruct N as [Na N].
    rewrite spread_has_nan in Na.
    pose proof (length_not_negative _ Na) as Hl.
    apply IH; [exact N | now apply Math_max_nonneg |].
    destruct H as [->|H]; [left; now apply Math_max_infinity_l|].
    apply orb_true_iff in H. destruct H as [H|H]; [left | now right].
    rewrite spread_has_infinity in H.
    rewrite (length_infinity _ Na H). now apply Math_max_infinity_r.
Qed.

(** X6. Positions that are not usable numbers fall back to the floor: if
    some coordinate of some position is NaN, or every asteroid sits at the
    origin, [maxDist] is [1] (NaN and [0] are both falsy for [|| 1]) and the
    scale is the upper bound [5]. *)
Theorem unusable_positions_scale (l : list Asteroid) :
  existsb has_nan l = true \/ forallb at_origin l = true ->
  maxDist l = 1 /\ scale_of l = 5.
Proof.
  intros H.
  assert (E : maxDist l = 1).
  { unfold maxDist. fold (reduction l 0).
    destruct H as [H|H];
      [rewrite (reduction_nan l 0 (or_intror H))
      |rewrite (reduction_origin l H)]; reflexivity. }
  split; [exact E|]. unfold scale_of. rewrite E. reflexivity.
Qed.

(** X7. With no NaN coordinate, one coordinate that is [Infinity] or
    [-Infinity] makes [maxDist] infinite, and the scale is the lower bound
    [0.02] ([30 / Infinity] is [0], clamped up). *)
Theorem infinite_position_scale (l : list Asteroid) :
  existsb has_nan l = false ->
  existsb has_infinity l = true ->
  maxDist l = infinity /\ scale_of l = 0.02.
Proof.
  intros N I.
  assert (E : maxDist l = infinity).
  { unfold maxDist. fold (reduction l 0).
    rewrite (reduction_infinity l N 0); [reflexivity | now left | now right]. }
  split; [exact E|]. unfold scale_of. rewrite E. reflexivity.
Qed.

Lemma unusable_positions_scale_witness :
  scale_of [ceres; lost; remote] = 5 /\ scale_of [sunk; sunk] = 5.
Proof.
  split.
  - exact (proj2 (unusable_positions_scale [ceres; lost; remote]
                    (or_introl eq_refl))).
  - exact (proj2 (unusable_positions_scale [sunk; sunk] (or_intror eq_refl))).
Defined.

Lemma infinite_position_scale_witness :
  existsb has_infinity [ceres; remote] = true /\
  scale_of [ceres; remote] = 0.02.
Proof.
  split; [reflexivity|].
  exact (proj2 (infinite_position_scale [ceres; remote] eq_refl eq_refl)).
Defined.

Lemma leb_not_ltb (a b : float) : (a <=? b) = true -> (b <? a) = false.
Proof.
  rewrite FloatAxioms.leb_spec, FloatAxioms.ltb_spec. unfold SFleb, SFltb.
  rewrite (SFcompare_antisym (Prim2SF a) (Prim2SF b)).
  destruct (SFcompare (Prim2SF a) (Prim2SF b)) as [[]|]; simpl; congruence.
Qed.

Lemma mul_finite_not_nan (a b : float) (s : bool) (m : positive) (e : Z) :
  is_nan a = false -> Prim2SF b = S754_finite s m e -> is_nan (a * b) = false.
Proof.
  intros Ha Hb. apply is_nan_false. rewrite mul_spec, Hb.
  apply is_nan_false in Ha.
  destruct (Prim2SF a) as [sa|sa| |sa ma ea]; simpl; try discriminate;
    [congruence|].
  now apply binary_round_aux_not_nan.
Qed.

(** X8. The sphere of an asteroid is never smaller than [0.05]: with the
    scale in [[0.02, 5]], the radius
    [Math.max(asteroid.size * Math.max(0.5, scale), 0.05)] is at least [0.05],
    whatever the size (negative, zero, infinite), unless the size is NaN, in
    which case the radius is NaN. *)
Theorem sphere_radius_floor (sc : JS.number) (hl : option string) (a : Asteroid) :
  in_range sc = true ->
  if is_nan (size a) then radius (draw sc hl a) = nan
  else (0.05 <=? radius (draw sc hl a)) = true.
Proof.
  intros H. unfold draw. cbn [radius].
  destruct (is_nan (size a)) eqn:N.
  - apply is_nan_true in N. rewrite N, mul_nan_l. reflexivity.
  - assert (F : exists m e, Prim2SF (JS.Math_max 0.5 sc) = S754_finite false m e).
    { destruct (in_range_facts sc H) as (Hn & _).
      destruct (Math_max_cases 0.5 sc eq_refl Hn) as [[-> _]|[-> _]].
      - now exists 4503599627370496%positive, (-53)%Z.
      - unfold in_range in H. apply andb_true_iff in H.
        now apply leb_finite_cases. }
    destruct F as (m & e & F).
    pose proof (mul_finite_not_nan _ _ _ _ _ N F) as M.
    destruct (Math_max_cases _ 0.05 M eq_refl) as [[-> L]|[-> _]];
      [exact L | reflexivity].
Qed.

Lemma sphere_radius_floor_witness :
  in_range (scale mounted) = true /\
  (0.05 <=? radius (draw (scale mounted) None
                      {| id := "p"; name := "Pebble"; position := (1, 2, 3);
                         size := -4; orbit := [] |})) = true /\
  radius (draw (scale mounted) None lost) = nan.
Proof.
  split; [reflexivity|]. split.
  - exact (sphere_radius_floor (scale mounted) None
             {| id := "p"; name := "Pebble"; position := (1, 2, 3);
                size := -4; orbit := [] |} eq_refl).
  - exact (sphere_radius_floor (scale mounted) None lost eq_refl).
Defined.

(** X9. Below a scale of [1] the Sun and the home position stop shrinking:
    [Math.max(1, scale)] is [1], so the Sun's radius is [2], its glow [3], the
    light's intensity [4] and distance [200], and the camera's home position
    is [(0, 20, 40)]. *)
Theorem sun_keeps_its_size (sc : JS.number) (hl : option string)
    (l : list Asteroid) :
  (sc <=? 1) = true ->
  sunRadius (view sc hl l) = 2 /\
  glowRadius (view sc hl l) = 3 /\
  lightIntensity (view sc hl l) = 4 /\
  lightDistance (view sc hl l) = 200 /\
  home sc = vec3 0 20 40.
Proof.
  intros H.
  assert (E : JS.Math_max 1 sc = 1).
  { unfold JS.Math_max. rewrite (leb_not_nan_l _ _ H), (leb_not_ltb _ _ H).
    simpl. now destruct (sc <? 1). }
  unfold view, home. simpl. rewrite E. repeat split.
Qed.

Lemma sun_keeps_its_size_witness :
  (scale_of [ceres] <=? 1) = true /\
  sunRadius (rendered mounted) = 2 /\
  home (scale_of [ceres]) = vec3 0 20 40.
Proof.
  pose proof (sun_keeps_its_size (scale_of [ceres]) None [ceres] eq_refl)
    as (H1 & _ & _ & _ & H5).
  split; [reflexivity|]. split; [exact H1 | exact H5].
Defined.

Lemma reduction_nonneg (l : list Asteroid) :
  existsb has_nan l = false ->
  forall m, nonneg (Prim2SF m) -> nonneg (Prim2SF (reduction l m)).
Proof.
  unfold reduction. induction l as [|a l IH]; intros N m Hm; simpl in *; [exact Hm|].
  apply orb_false_iff in N. destruct N as [Na N]. rewrite spread_has_nan in Na.
  apply IH; [exact N|]. apply Math_max_nonneg; [exact Hm|].
  now apply length_not_negative.
Qed.

Lemma nonneg_truthy_positive (a : float) :
  nonneg (Prim2SF a) -> JS.truthy a = true -> (0 <? a) = true.
Proof.
  intros H T. unfold JS.truthy, is_zero in T.
  rewrite FloatAxioms.eqb_spec in T. rewrite FloatAxioms.ltb_spec.
  change (Prim2SF 0) with (S754_zero false). change (Prim2SF zero) with (S754_zero false) in T.
  destruct H as [E|[E|(m & e & E)]]; rewrite E in *; [discriminate| |]; reflexivity.
Qed.

(** X10. [maxDist] is a positive number, never NaN, for every collection, so
    the [: 1] arm of [maxDist > 0 ? desiredMax / maxDist : 1] is dead code:
    the scale is always the clamped quotient. *)
Theorem maxDist_is_positive (l : list Asteroid) :
  (0 <? maxDist l) = true /\
  is_nan (maxDist l) = false /\
  scale_of l = clamp (desiredMax / maxDist l).
Proof.
  assert (P : (0 <? maxDist l) = true).
  { unfold maxDist. fold (reduction l 0). unfold JS.or_else.
    destruct (JS.truthy (reduction l 0)) eqn:T; [|reflexivity].
    destruct (existsb has_nan l) eqn:N.
    - rewrite (reduction_nan l 0 (or_intror N)) in T. discriminate.
    - apply nonneg_truthy_positive; [|exact T].
      apply reduction_nonneg; [exact N | now left]. }
  split; [exact P|]. split.
  - apply ltb_leb in P. exact (leb_not_nan_r _ _ P).
  - unfold scale_of. now rewrite P.
Qed.

(** ** The order of the entities *)

Lemma nonneg_antisym (a b : float) :
  nonneg (Prim2SF a) -> nonneg (Prim2SF b) ->
  (a <=? b) = true -> (b <=? a) = true -> a = b.
Proof.
  intros Ha Hb. rewrite !FloatAxioms.leb_spec. unfold SFleb.
  rewrite (SFcompare_antisym (Prim2SF a) (Prim2SF b)).
  intros L1 L2. apply Prim2SF_inj.
  destruct Ha as [Ea|[Ea|(m & e & Ea)]], Hb as [Eb|[Eb|(m' & e' & Eb)]];
    rewrite Ea, Eb in *; try reflexivity; try discriminate.
  simpl in *.
  destruct (Z.compare_spec e e') as [E|E|E]; try discriminate.
  subst e'.
  destruct (Pos.compare_cont Eq m m') eqn:C; try discriminate.
  now rewrite (Pcompare_Eq_eq _ _ C).
Qed.

Lemma Math_max_upper (a b : float) :
  nonneg (Prim2SF a) -> nonneg (Prim2SF b) ->
  (JS.Math_max a b = a \/ JS.Math_max a b = b) /\
  (a <=? JS.Math_max a b) = true /\ (b <=? JS.Math_max a b) = true.
Proof.
  intros Ha Hb.
  pose proof (nonneg_not_nan _ Ha) as Na. pose proof (nonneg_not_nan _ Hb) as Nb.
  destruct (Math_max_cases a b Na Nb) as [[-> L]|[-> L]];
    auto using leb_refl.
Qed.

Lemma Math_max_swap (m a b : float) :
  nonneg (Prim2SF m) -> nonneg (Prim2SF a) -> nonneg (Prim2SF b) ->
  JS.Math_max (JS.Math_max m a) b = JS.Math_max (JS.Math_max m b) a.
Proof.
  intros Hm Ha Hb.
  pose proof (Math_max_nonneg _ _ Hm Ha) as H1.
  pose proof (Math_max_nonneg _ _ Hm Hb) as H2.
  destruct (Math_max_upper m a Hm Ha) as (C1 & U1 & U2).
  destruct (Math_max_upper m b Hm Hb) as (C2 & V1 & V2).
  destruct (Math_max_upper _ b H1 Hb) as (C3 & W1 & W2).
  destruct (Math_max_upper _ a H2 Ha) as (C4 & X1 & X2).
  apply nonneg_antisym; try now apply Math_max_nonneg.
  - destruct C3 as [->| ->]; [destruct C1 as [->| ->]|]; eauto using leb_trans.
  - destruct C4 as [->| ->]; [destruct C2 as [->| ->]|]; eauto using leb_trans.
Qed.

Lemma fold_max_permutation (ls ls' : list float) :
  Permutation ls ls' ->
  Forall (fun v => nonneg (Prim2SF v)) ls ->
  forall m, nonneg (Prim2SF m) ->
  fold_left JS.Math_max ls m = fold_left JS.Math_max ls' m.
Proof.
  induction 1 as [|v ls ls' P IH|v w ls|ls ls' ls'' P1 IH1 P2 IH2];
    intros F m Hm; simpl.
  - reflexivity.
  - inversion F; subst. apply IH; [assumption|]. now apply Math_max_nonneg.
  - inversion F as [|? ? Fw F']; subst. inversion F' as [|? ? Fv F'']; subst.
    now rewrite Math_max_swap.
  - rewrite IH1 by assumption. apply IH2; [|assumption].
    eapply Permutation_Forall; eauto.
Qed.

Lemma existsb_permutation {A : Type} (f : A -> bool) (l l' : list A) :
  Permutation l l' -> existsb f l = existsb f l'.
Proof.
  induction 1 as [|v l l' P IH|v w l|l l' l'' P1 IH1 P2 IH2]; simpl.
  - reflexivity.
  - now rewrite IH.
  - now destruct (f v), (f w).
  - congruence.
Qed.

Lemma reduction_fold (l : list Asteroid) :
  forall m,
    reduction l m
    = fold_left JS.Math_max
        (map (fun t => length (spread t)) (map position l)) m.
Proof.
  unfold reduction. induction l as [|a l IH]; intros m; simpl; [reflexivity|].
  apply IH.
Qed.

Lemma has_nan_positions (l : list Asteroid) :
  existsb has_nan l = existsb nan_in (map position l).
Proof.
  induction l as [|a l IH]; simpl; [reflexivity|]. now rewrite IH.
Qed.

Lemma lengths_nonneg (l : list Asteroid) :
  existsb has_nan l = false ->
  Forall (fun v => nonneg (Prim2SF v))
         (map (fun t => length (spread t)) (map position l)).
Proof.
  induction l as [|a l IH]; intros N; simpl in *; constructor.
  - apply orb_false_iff in N. destruct N as [Na _].
    rewrite spread_has_nan in Na. now apply length_not_negative.
  - apply orb_false_iff in N. now apply IH.
Qed.

(** X11. The scale depends on the positions only, not on their order: two
    collections whose positions are a permutation of each other have the same
    [maxDist] and the same scale (also with NaN or infinite coordinates). *)
Theorem scale_ignores_order (l1 l2 : list Asteroid) :
  Permutation (map position l1) (map position l2) ->
  maxDist l1 = maxDist l2 /\ scale_of l1 = scale_of l2.
Proof.
  intros P.
  assert (E : maxDist l1 = maxDist l2).
  { unfold maxDist. fold (reduction l1 0) (reduction l2 0). f_equal.
    pose proof (existsb_permutation nan_in _ _ P) as Hn. rewrite <- !has_nan_positions in Hn.
    destruct (existsb has_nan l1) eqn:N.
    - rewrite (reduction_nan l1 0 (or_intror N)).
      now rewrite (reduction_nan l2 0 (or_intror (eq_sym Hn))).
    - rewrite !reduction_fold. apply fold_max_permutation.
      + now apply Permutation_map.
      + now apply lengths_nonneg.
      + now left. }
  split; [exact E|]. unfold scale_of. now rewrite E.
Qed.

Lemma scale_ignores_order_witness :
  scale_of [ceres; vesta; lost] = scale_of [vesta; lost; sunk_ceres] /\
  scale_of [vesta; lost; sunk_ceres] = 5.
Proof.
  split; [|reflexivity].
  apply (scale_ignores_order [ceres; vesta; lost] [vesta; lost; sunk_ceres]).
  simpl. eapply perm_trans; [apply perm_swap|]. apply perm_skip, perm_swap.
Defined.

(** * The page *)

Module PageFacts.
Import Page.

Lemma listed_In (s : State) (i : nat) (a : Asteroid) :
  nth_error (listed s) i = Some a ->
  exists d, sceneData s = Some d /\ In a (data_asteroids d).
Proof.
  unfold listed. destruct (sceneData s) as [d|]; [|now destruct i].
  rewrite nth_error_firstn. destruct (i <? 20)%nat; [|discriminate].
  intros H. exists d. split; [reflexivity|]. eapply nth_error_In, H.
Qed.

Lemma click_item_ok (i : nat) (s : State) :
  selection_ok s -> selection_ok (click_item i s).
Proof.
  intros H. unfold click_item.
  destruct (nth_error (listed s) i) as [a|] eqn:E; [|exact H].
  intros a' Ha. simpl in *. injection Ha as <-. exact (listed_In s i a E).
Qed.

Lemma click_body_ok (i : nat) (s : State) :
  selection_ok s -> selection_ok (click_body i s).
Proof.
  intros H. unfold click_body, onSelect.
  destruct (sceneData s) as [d|] eqn:D; [|exact H].
  destruct (nth_error (data_asteroids d) i) as [a|]; [|exact H].
  destruct (find _ (data_asteroids d)) as [found|] eqn:F; [|exact H].
  intros a' Ha. simpl in *. injection Ha as <-. exists d. split; [exact D|].
  exact (proj1 (find_some _ _ F)).
Qed.

(** Once the page is not loading, the data stay what the fetch delivered. *)
Lemma step_after_load (s : State) (e : Event) :
  loading s = false ->
  loading (step s e) = false /\ sceneData (step s e) = sceneData s /\
  error (step s e) = error s.
Proof.
  intros L. unfold step, on_main, click_center, click_item, click_body, onSelect.
  rewrite L.
  destruct e as [data|r| | | | |i|i]; simpl;
    repeat match goal with
    | |- context [if ?b then _ else _] => destruct b
    | |- context [match ?x with _ => _ end] => destruct x eqn:?
    end; simpl; repeat split; auto.
Qed.

Lemma step_while_loading (s : State) (e : Event) :
  loading s = true ->
  match e with
  | Resolved data => step s e = resolved data s
  | Rejected r => step s e = rejected r s
  | _ => step s e = s
  end.
Proof.
  intros L. unfold step, on_main. rewrite L. now destruct e.
Qed.

Lemma invariant_initial : invariant initial.
Proof. split; [reflexivity|]. intros a. simpl. discriminate. Qed.

Lemma invariant_step (s : State) (e : Event) :
  invariant s -> invariant (step s e).
Proof.
  intros [H1 H2]. destruct (loading s) eqn:L.
  - pose proof (step_while_loading s e L) as E. rewrite (H1 eq_refl) in *.
    destruct e; rewrite E; try apply invariant_initial;
      (split; [discriminate|intros a; simpl; discriminate]).
  - destruct (step_after_load s e L) as (L' & _ & _).
    split; [congruence|].
    unfold step. rewrite L.
    destruct e as [data|r| | | | |i|i]; try exact H2;
      match goal with |- context [if ?b then _ else _] => destruct b end;
      try exact H2.
    + intros a. simpl. discriminate.
    + now apply click_item_ok.
    + now apply click_body_ok.
Qed.

Lemma invariant_run (es : list Event) :
  forall s, invariant s -> invariant (run es s).
Proof.
  induction es as [|e es IH]; intros s H; simpl; auto using invariant_step.
Qed.

Lemma run_after_load (es : list Event) :
  forall s, loading s = false ->
  loading (run es s) = false /\ sceneData (run es s) = sceneData s /\
  error (run es s) = error s.
Proof.
  induction es as [|e es IH]; intros s L; simpl; [auto|].
  destruct (step_after_load s e L) as (L' & D & E).
  destruct (IH _ L') as (L'' & D' & E'). repeat split; congruence.
Qed.

End PageFacts.


Lemma find_In_some (h : string) (l : list Asteroid) (a : Asteroid) :
  In a l -> id a = h ->
  exists found, find (fun b => String.eqb (id b) h) l = Some found /\ id found = h.
Proof.
  intros I E. destruct (find (fun b => String.eqb (id b) h) l) as [found|] eqn:F.
  - exists found. split; [reflexivity|].
    apply String.eqb_eq. exact (proj2 (find_some _ _ F)).
  - pose proof (find_none _ _ F a I) as N. simpl in N.
    rewrite E, String.eqb_refl in N. discriminate.
Qed.

(** X12. The id the page passes down is never one the scene cannot resolve:
    in every state the page reaches, if [highlightId] is an id then an
    asteroid of the [data] passed with it has that id. *)
Theorem page_selection_resolves (es : list Page.Event) (p : Props) (h : string) :
  Page.scene_props (Page.run es Page.initial) = Some p ->
  highlightId p = Some h ->
  exists found,
    find (fun a => String.eqb (id a) h) (asteroids p) = Some found /\
    id found = h.
Proof.
  intros Hp Hh.
  destruct (PageFacts.invariant_run es _ PageFacts.invariant_initial) as [_ Hs].
  unfold Page.scene_props in Hp.
  destruct (Page.sceneData (Page.run es Page.initial)) as [d|] eqn:D;
    [|discriminate].
  injection Hp as <-. simpl in *.
  destruct (App.selectedAsteroid (Page.app (Page.run es Page.initial)))
    as [a|] eqn:S; [|discriminate].
  simpl in Hh. injection Hh as <-.
  destruct (Hs a S) as (d' & D' & I).
  assert (d' = d) by congruence. subst d'.
  now apply (find_In_some (id a) _ a).
Qed.

Lemma page_selection_resolves_witness :
  exists found,
    find (fun a => String.eqb (id a) "2000004") [ceres; vesta] = Some found /\
    id found = "2000004"%string.
Proof.
  exact (page_selection_resolves
           [Page.Resolved (Some catalogue); Page.ClickItem 1]
           (App.scene_props [ceres; vesta] 0 (App.select vesta App.initial))
           "2000004" eq_refl eq_refl).
Defined.

(** X13. While the request is pending the page shows the loading screen,
    whatever is clicked; when the request resolves with data, the page shows
    the panel and the scene with nothing selected and a reset signal of [0],
    and the data are never replaced after that. *)
Theorem page_first_scene (es : list Page.Event) (d : Page.SceneData) :
  Page.loading (Page.run es Page.initial) = true ->
  Page.render (Page.run es Page.initial) = Page.LoadingScreen /\
  let s := Page.step (Page.run es Page.initial) (Page.Resolved (Some d)) in
  Page.render s
    = Page.Main (Some (Page.panel s))
        (Some (App.scene_props (Page.data_asteroids d) (Page.data_ref d)
                               App.initial)) /\
  forall es', Page.sceneData (Page.run es' s) = Some d.
Proof.
  intros L.
  destruct (PageFacts.invariant_run es _ PageFacts.invariant_initial) as [Hi _].
  rewrite (Hi L). split; [reflexivity|]. split; [reflexivity|].
  intros es'.
  now destruct (PageFacts.run_after_load es'
                  (Page.step Page.initial (Page.Resolved (Some d))) eq_refl)
    as (_ & -> & _).
Qed.

Lemma page_first_scene_witness :
  Page.loading (Page.run [Page.CenterOnSun; Page.ClickItem 0] Page.initial) = true /\
  Page.render loaded
    = Page.Main (Some (Page.panel loaded))
                (Some (App.scene_props [ceres; vesta] 0 App.initial)).
Proof.
  split; [reflexivity|].
  exact (proj1 (proj2 (page_first_scene
                         [Page.CenterOnSun; Page.ClickItem 0] catalogue eq_refl))).
Defined.

(** X14. When the request is rejected with an axios error, the page shows
    [Failed to load asteroid data: <message> ] followed by [(status <n>)] if
    there was a response, and no event changes the page any more; a rejection
    whose text is the empty string is not shown as an error (the text is
    falsy): the page shows the panel without data and no scene. *)
Theorem page_fetch_failure (es : list Page.Event) (message : string)
    (status : option nat) :
  Page.loading (Page.run es Page.initial) = true ->
  (let s := Page.step (Page.run es Page.initial)
                      (Page.Rejected (Page.AxiosError message status)) in
   Page.render s
     = Page.ErrorScreen
         ("Failed to load asteroid data: " ++ message ++ " " ++
          match status with
          | Some n => "(status " ++ NilEmpty.string_of_uint (Nat.to_uint n) ++ ")"
          | None => ""
          end) /\
   forall es', Page.run es' s = s) /\
  (let s := Page.step (Page.run es Page.initial)
                      (Page.Rejected (Page.Other "")) in
   Page.render s
     = Page.Main
         (Some {| Page.meta := None; Page.items := []; Page.details := None |})
         None).
Proof.
  intros L.
  destruct (PageFacts.invariant_run es _ PageFacts.invariant_initial) as [Hi _].
  rewrite (Hi L). split; [|reflexivity]. split; [reflexivity|].
  intros es'. induction es' as [|e es' IH]; [reflexivity|].
  simpl. now destruct e.
Qed.

Lemma page_fetch_failure_witness :
  Page.render (Page.step Page.initial
                 (Page.Rejected (Page.AxiosError "Network Error" None)))
    = Page.ErrorScreen "Failed to load asteroid data: Network Error " /\
  Page.render (Page.step Page.initial
                 (Page.Rejected (Page.AxiosError "Request failed" (Some 404%nat))))
    = Page.ErrorScreen "Failed to load asteroid data: Request failed (status 404)".
Proof.
  split.
  - exact (proj1 (proj1 (page_fetch_failure [] "Network Error" None eq_refl))).
  - exact (proj1 (proj1 (page_fetch_failure [] "Request failed" (Some 404%nat) eq_refl))).
Defined.



(** X15. The list of the panel shows the first twenty asteroids of the data,
    in their order, and the scene draws all of them; a click on a listed
    asteroid selects it, and there is no button for the others. *)
Theorem list_shows_first_twenty (s : Page.State) (d : Page.SceneData) :
  Page.sceneData s = Some d ->
  Page.on_main s = true ->
  Page.showPanel s = true ->
  map Page.item_key (Page.items (Page.panel s))
    = firstn 20 (map id (Page.data_asteroids d)) /\
  List.length (Page.items (Page.panel s))
    = Nat.min 20 (List.length (Page.data_asteroids d)) /\
  (forall sc hl,
      List.length (bodies (view sc hl (Page.data_asteroids d)))
        = List.length (Page.data_asteroids d)) /\
  forall i a, nth_error (Page.data_asteroids d) i = Some a ->
    if (i <? 20)%nat
    then App.selectedAsteroid (Page.app (Page.step s (Page.ClickItem i))) = Some a
    else Page.step s (Page.ClickItem i) = s.
Proof.
  intros D M P. unfold Page.panel, Page.listed. cbn [Page.items]. rewrite D.
  split; [|split; [|split]].
  - rewrite map_map, firstn_map. reflexivity.
  - now rewrite length_map, length_firstn.
  - intros sc hl. unfold view. cbn [bodies]. apply length_map.
  - intros i a H. unfold Page.step, Page.click_item, Page.listed.
    rewrite M, P, D. cbn [andb]. rewrite nth_error_firstn.
    destruct (i <? 20)%nat; [now rewrite H | reflexivity].
Qed.

Lemma list_shows_first_twenty_witness :
  List.length (Page.items (Page.panel
     (Page.step Page.initial (Page.Resolved (Some crowd))))) = 20%nat /\
  Page.step (Page.step Page.initial (Page.Resolved (Some crowd)))
            (Page.ClickItem 20)
    = Page.step Page.initial (Page.Resolved (Some crowd)).
Proof.
  pose proof (list_shows_first_twenty
                (Page.step Page.initial (Page.Resolved (Some crowd))) crowd
                eq_refl eq_refl eq_refl) as (_ & H2 & _ & H4).
  split; [exact H2|]. exact (H4 20%nat ceres eq_refl).
Defined.




(** X17. A click on "Center on Sun" clears the selection and raises the
    reset signal by one; where that is a different number, the render that
    follows runs the reset procedure: focus at the origin, camera at the home
    position, one timeout due in [600] ms. *)
Theorem center_on_sun_click (s : Page.State) (d : Page.SceneData) (st : Scene)
    (c : option Controls) :
  Page.on_main s = true ->
  Page.showPanel s = true ->
  Page.sceneData s = Some d ->
  Page.scene_props s = Some (props st) ->
  well_formed st = true ->
  JS.Object_is (App.resetSignal (Page.app s))
               (App.resetSignal (Page.app s) + 1) = false ->
  exists p,
    Page.scene_props (Page.step s Page.CenterOnSun) = Some p /\
    Page.details (Page.panel (Page.step s Page.CenterOnSun)) = None /\
    highlightId p = None /\
    targetRef (rerender p c st) = Some origin /\
    cam_position (camera (rerender p c st)) = home (scale st) /\
    timers (rerender p c st) = [(next_timer st, (clock st + 600)%nat)].
Proof.
  intros M P D Hp Hw Hs. apply well_formed_parts in Hw. destruct Hw as [Ht _].
  unfold Page.step, Page.click_center. rewrite M, P. cbn [andb].
  unfold Page.scene_props in *. rewrite D in Hp. cbn [Page.sceneData Page.set_app].
  rewrite D. injection Hp as Hp.
  eexists. split; [reflexivity|]. split; [reflexivity|]. split; [reflexivity|].
  set (p := App.scene_props _ _ _).
  assert (Hd : reset_deps_changed p c st = true).
  { unfold reset_deps_changed. rewrite <- Hp. subst p. simpl. now rewrite Hs. }
  rewrite (rerender_reset p c st _ Ht eq_refl Hd). simpl.
  assert (Hm : memo p st = scale st).
  { unfold memo. rewrite <- Hp. subst p. simpl. now rewrite Nat.eqb_refl. }
  rewrite Hm. split; [reflexivity|]. split; [now destruct c | reflexivity].
Qed.

Lemma center_on_sun_click_witness :
  JS.Object_is (App.resetSignal (Page.app loaded))
               (App.resetSignal (Page.app loaded) + 1) = false /\
  targetRef (rerender (App.scene_props [ceres; vesta] 0
                         (App.center_on_sun App.initial))
                      (controls loaded_scene) loaded_scene) = Some origin.
Proof.
  split; [reflexivity|].
  destruct (center_on_sun_click loaded catalogue loaded_scene
              (controls loaded_scene) eq_refl eq_refl eq_refl eq_refl eq_refl
              eq_refl) as (p & Hp & _ & _ & H & _).
  injection Hp as <-. exact H.
Defined.

(** X18. The reset signal is a binary64 counter: once [resetSignal + 1]
    is [resetSignal] (from [2^53] on), a click on "Center on Sun" still
    clears the selection but no longer resets the view: the camera and the
    timers are untouched. *)
Theorem center_on_sun_saturated (s : Page.State) (d : Page.SceneData)
    (st : Scene) (c : option Controls) :
  Page.on_main s = true ->
  Page.showPanel s = true ->
  Page.sceneData s = Some d ->
  Page.scene_props s = Some (props st) ->
  same_controls (controls st) c = true ->
  JS.Object_is (App.resetSignal (Page.app s))
               (App.resetSignal (Page.app s) + 1) = true ->
  exists p,
    Page.scene_props (Page.step s Page.CenterOnSun) = Some p /\
    highlightId p = None /\
    targetRef (rerender p c st)
      = (if same_highlight (highlightId (props st)) None then targetRef st
         else None) /\
    camera (rerender p c st) = camera st /\
    timers (rerender p c st) = timers st.
Proof.
  intros M P D Hp Hc Hs.
  unfold Page.step, Page.click_center. rewrite M, P. cbn [andb].
  unfold Page.scene_props in *. rewrite D in Hp. cbn [Page.sceneData Page.set_app].
  rewrite D. injection Hp as Hp.
  eexists. split; [reflexivity|]. split; [reflexivity|].
  set (p := App.scene_props _ _ _).
  assert (Hd : reset_deps_changed p c st = false).
  { unfold reset_deps_changed. rewrite Hc, <- Hp. subst p. simpl. now rewrite Hs. }
  rewrite (rerender_selection p c st Hd).
  unfold highlight_deps_changed.
  assert (Hr : (asteroids_ref (props st) =? asteroids_ref p)%nat = true).
  { rewrite <- Hp. subst p. simpl. apply Nat.eqb_refl. }
  rewrite Hr. change (highlightId p) with (@None string).
  destruct (same_highlight (highlightId (props st)) None); simpl; repeat split.
Qed.

Lemma center_on_sun_saturated_witness :
  JS.Object_is (App.resetSignal (Page.app worn))
               (App.resetSignal (Page.app worn) + 1) = true /\
  targetRef worn_scene = Some (vec3 0 15 0) /\
  targetRef (rerender (App.scene_props [ceres; vesta] 0
                         (App.center_on_sun (Page.app worn)))
                      (controls worn_scene) worn_scene) = None /\
  timers (rerender (App.scene_props [ceres; vesta] 0
                      (App.center_on_sun (Page.app worn)))
                   (controls worn_scene) worn_scene) = [].
Proof.
  split; [reflexivity|]. split; [reflexivity|].
  destruct (center_on_sun_saturated worn catalogue worn_scene
              (controls worn_scene) eq_refl eq_refl eq_refl eq_refl eq_refl
              eq_refl) as (p & Hp & _ & H1 & _ & H2).
  injection Hp as <-. split; [exact H1 | exact H2].
Defined.

(** ** Ids that are shared or empty *)

(** X19. When several asteroids share the selected id, the focus goes to
    the first of them in the collection ([find]), while every one of them is
    drawn highlighted. *)
Theorem focus_goes_to_first_match (p : Props) (c : option Controls) (st : Scene)
    (before after : list Asteroid) (a : Asteroid) :
  asteroids p = before ++ a :: after ->
  forallb (fun b => negb (String.eqb (id b) (id a))) before = true ->
  reset_deps_changed p c st = false ->
  same_highlight (highlightId (props st)) (highlightId p) = false ->
  highlightId p = Some (id a) ->
  JS.falsy_string (id a) = false ->
  targetRef (rerender p c st)
    = Some (multiplyScalar (spread (position a)) (scale (rerender p c st))) /\
  forall b, In b (asteroids p) -> id b = id a ->
    color (draw (scale (rerender p c st)) (highlightId p) b) = "#FFA042"%string.
Proof.
  intros Ha Hb Hr Hs Hh Hn.
  assert (F : find (fun b => String.eqb (id b) (id a)) (asteroids p) = Some a).
  { rewrite Ha. clear Ha. induction before as [|b l IH]; simpl.
    - now rewrite String.eqb_refl.
    - simpl in Hb. apply andb_true_iff in Hb. destruct Hb as [H1 H2].
      apply negb_true_iff in H1. rewrite H1. now apply IH. }
  rewrite (rerender_selection_focus p c st (id a) a Hr Hs Hh Hn F). simpl.
  split; [reflexivity|].
  intros b _ E. unfold draw, isHighlighted. rewrite Hh, E, String.eqb_refl.
  reflexivity.
Qed.

Lemma focus_goes_to_first_match_witness :
  targetRef
    (rerender {| asteroids := [vesta; ceres_twin; ceres]; asteroids_ref := 0;
                 highlightId := Some "2000001"%string; resetSignal := Some 0 |}
              (controls loaded_scene) loaded_scene)
    = Some (vec3 0 0 24) /\
  color (draw 0.3 (Some "2000001"%string) ceres) = "#FFA042"%string.
Proof.
  pose proof (focus_goes_to_first_match
                {| asteroids := [vesta; ceres_twin; ceres]; asteroids_ref := 0;
                   highlightId := Some "2000001"%string; resetSignal := Some 0 |}
                (controls loaded_scene) loaded_scene [vesta] [ceres] ceres_twin
                eq_refl eq_refl eq_refl eq_refl eq_refl eq_refl) as [H1 H2].
  split; [exact H1|].
  exact (H2 ceres (or_intror (or_intror (or_introl eq_refl))) eq_refl).
Defined.

(** X20. An asteroid whose id is the empty string can be selected and is
    drawn highlighted, but is never focused: the effect treats the empty
    [highlightId] as no selection and clears the focus. *)
Theorem empty_id_is_highlighted_not_focused (p : Props) (c : option Controls)
    (st : Scene) (a : Asteroid) :
  id a = ""%string ->
  reset_deps_changed p c st = false ->
  same_highlight (highlightId (props st)) (highlightId p) = false ->
  highlightId p = Some (id a) ->
  color (draw (scale (rerender p c st)) (highlightId p) a) = "#FFA042"%string /\
  targetRef (rerender p c st) = None /\
  forall es, forallb quiet es = true -> timers st = [] ->
    targetRef (run es (rerender p c st)) = None.
Proof.
  intros Ha Hr Hs Hh.
  assert (E : rerender p c st =
    {| props := p; scale := memo p st; camera := camera st; controls := c;
       targetRef := None; rotation_y := rotation_y st;
       clock := clock st; timers := timers st; next_timer := next_timer st;
       cleanup := cleanup st; fired := fired st |}).
  { rewrite (rerender_selection p c st Hr).
    unfold highlight_deps_changed. rewrite Hs. simpl.
    unfold highlight_effect. simpl. now rewrite Hh, Ha. }
  rewrite E. simpl. split; [|split; [reflexivity|]].
  - unfold draw, isHighlighted. rewrite Hh, String.eqb_refl. reflexivity.
  - intros es Hq Ht.
    match goal with |- targetRef (run es ?s) = _ =>
      destruct (run_quiet_idle es s Hq Ht) as (_ & H & _) end.
    exact H.
Qed.

Lemma empty_id_is_highlighted_not_focused_witness :
  id nameless = ""%string /\
  targetRef
    (rerender (App.scene_props [ceres; nameless] 0 (App.select nameless App.initial))
       (controls focusing) focusing) = None.
Proof.
  split; [reflexivity|].
  exact (proj1 (proj2 (empty_id_is_highlighted_not_focused
           (App.scene_props [ceres; nameless] 0 (App.select nameless App.initial))
           (controls focusing) focusing nameless
           eq_refl eq_refl eq_refl eq_refl))).
Defined.
